(** * purge-tables.py: the purge orchestration engine

    A shallow embedding of [scripts/purge-tables.py] and the properties its
    specification states about it.

    The script reads a YAML job list, resolves one configuration per alias,
    enumerates the (database, table) targets of each job, retires every
    target with one of three strategies by driving [mysql], [mysqldump] and
    [pt-archiver], and reports per-job success or failure.

    Modelling choices.
    - Values read from YAML or from a result row are Python scalars
      ([pyval]): [None], booleans, integers and strings.  Floats and nested
      collections as option values are outside the model.
    - A job mapping is a [gmap string pyval]; [dict.get], [dict.copy] and
      [dict.update] are lookup and left-biased union.
    - Everything outside the interpreter (child processes, the lookup query,
      the clock, the YAML loader) is a parameter of the development: the
      code is deterministic once their answers are fixed.
    - Effects are threaded through a small monad [M] over a [state] that
      holds the outside world and the chronological trace of what the
      script did (log records, prints, spawned processes).  A computation
      ends with a value, a raised exception, [return] from [main], or
      [sys.exit].
    - Durations computed from [time.time()] are floating point and appear in
      log texts only; the two log records that carry them are kept without
      their duration.
    - Opening the per-job log file and starting a child process are taken to
      succeed, and the lookup fails only with one of the two exception
      classes the script handles.  The module-level set-up of the logging
      directory (lines 43-51) is not part of [main] and is left out. *)

From Stdlib Require Import ZArith Lia Ascii String DecimalString.
From stdpp Require Import base strings gmap list.

Open Scope Z_scope.

(** ** Python values *)

Module Py.

Inductive pyval : Type :=
| PNone
| PBool (b : bool)
| PInt (z : Z)
| PStr (s : string).

(** Exceptions the script can meet on the modelled values. *)
Inductive exn : Type :=
| KeyError (key : string)
| TypeError
| AttributeError
| UnboundLocalError
| OtherError.

(** Truth value: [None], [False], [0] and [''] are false. *)
Definition truthy (v : pyval) : bool :=
  match v with
  | PNone => false
  | PBool b => b
  | PInt z => negb (z =? 0)
  | PStr s => negb (String.eqb s "")
  end.

(** [==]: booleans compare as the integers 0 and 1. *)
Definition as_int (v : pyval) : option Z :=
  match v with
  | PBool b => Some (if b then 1 else 0)
  | PInt z => Some z
  | _ => None
  end.

Definition eq (a b : pyval) : bool :=
  match a, b with
  | PNone, PNone => true
  | PStr s, PStr t => String.eqb s t
  | _, _ =>
      match as_int a, as_int b with
      | Some x, Some y => x =? y
      | _, _ => false
      end
  end.

(** [x in seq]. *)
Definition is_in (x : pyval) (l : list pyval) : bool := existsb (eq x) l.

(** [str(v)], which is what ['%s' % v] and ['{}'.format(v)] insert. *)
Definition str (v : pyval) : string :=
  match v with
  | PNone => "None"
  | PBool true => "True"
  | PBool false => "False"
  | PInt z => NilZero.string_of_int (Z.to_int z)
  | PStr s => s
  end.

(** [a + b] on the modelled values where both sides are strings; any other
    pairing met in the script ([str + int], [None + str], ...) raises
    [TypeError]. *)
Definition concat (a b : pyval) : exn + pyval :=
  match a, b with
  | PStr s, PStr t => inr (PStr (s +:+ t))
  | _, _ => inl TypeError
  end.

(** The strings of a list, when every item is one. *)
Fixpoint strings_of (l : list pyval) : option (list string) :=
  match l with
  | [] => Some []
  | PStr s :: l' => option_map (cons s) (strings_of l')
  | _ :: _ => None
  end.

(** [' '.join(l)] on strings. *)
Fixpoint join_space (l : list string) : string :=
  match l with
  | [] => ""
  | [s] => s
  | s :: l' => s +:+ " " +:+ join_space l'
  end.

(** [s.split(' ')]: every single space separates, so consecutive spaces
    give empty items and the result is never empty. *)
Fixpoint split_space (s : string) : list string :=
  match s with
  | EmptyString => [EmptyString]
  | String c s' =>
      if Ascii.eqb c " "%char then EmptyString :: split_space s'
      else match split_space s' with
           | [] => [String c EmptyString]
           | w :: ws => String c w :: ws
           end
  end.

End Py.

Import Py.

(** ** Job configuration (lines 101-126) *)

(** The [conf] dict of [main]: one field per key. *)
Record conf : Type := Conf {
  prg_alias : pyval;
  src_host : pyval;
  src_port : pyval;
  src_db : pyval;
  src_tbl : pyval;
  src_query : pyval;
  dst_host : pyval;
  dst_port : pyval;
  dst_db : pyval;
  dst_tbl : pyval;
  dst_file : pyval;
  prg_where : pyval;
  prg_limit : pyval;
  prg_sleep : pyval;
  prg_purge : pyval;
  prg_extra_args : pyval;
  prg_disable_binlog : pyval;
  prg_use_index : pyval;
  swp_drp : pyval;
  swp_table_suffix : pyval
}.

(** [conf['dst_tbl'] = v] (line 168). *)
Definition set_dst_tbl (c : conf) (v : pyval) : conf :=
  Conf (prg_alias c) (src_host c) (src_port c) (src_db c) (src_tbl c)
       (src_query c) (dst_host c) (dst_port c) (dst_db c) v (dst_file c)
       (prg_where c) (prg_limit c) (prg_sleep c) (prg_purge c)
       (prg_extra_args c) (prg_disable_binlog c) (prg_use_index c)
       (swp_drp c) (swp_table_suffix c).

(** [purge.get(key)] and [purge.get(key, dflt)]: a key stored with a null
    value is present and yields [None]. *)
Definition get (purge : gmap string pyval) (key : string) : pyval :=
  default PNone (purge !! key).

Definition get_or (purge : gmap string pyval) (key : string) (dflt : pyval) : pyval :=
  default dflt (purge !! key).

(** [default_purge.copy()] followed by [.update(purge)] (lines 91-92): the
    override wins. *)
Definition merge (default_purge purge : gmap string pyval) : gmap string pyval :=
  purge ∪ default_purge.

(** The dict literal of lines 101-122; [today] is [time.strftime('%Y%m%d')]. *)
Definition conf_of_purge (today : string) (purge : gmap string pyval) : conf :=
  {| prg_alias := get purge "ALIAS";
     src_host := get_or purge "SOURCE_HOST" (PStr "localhost");
     src_port := get_or purge "SOURCE_PORT" (PInt 3306);
     src_db := get purge "SOURCE_DB";
     src_tbl := get purge "SOURCE_TABLE";
     src_query := get purge "SOURCE_QUERY";
     dst_host := get purge "DEST_HOST";
     dst_port := get purge "DEST_PORT";
     dst_db := get purge "DEST_DB";
     dst_tbl := get purge "DEST_TABLE";
     dst_file := get purge "DEST_FILE";
     prg_where := get purge "WHERE";
     prg_limit := get_or purge "LIMIT" (PInt 1000);
     prg_sleep := get_or purge "SLEEP" (PInt 1);
     prg_purge := get_or purge "DELETE_DATA" (PInt 0);
     prg_extra_args := get purge "EXTRA_ARGS";
     prg_disable_binlog := get_or purge "DISABLE_BINLOG" (PInt 0);
     prg_use_index := get_or purge "USE_INDEX" PNone;
     swp_drp := get_or purge "SWAP_DROP" (PInt 0);
     swp_table_suffix := get_or purge "SWP_TABLE_SUFFIX" (PStr today) |}.

(** Lines 124-126: a destination coordinate that is false takes the source's. *)
Definition or_src (dst src : pyval) : pyval := if truthy dst then dst else src.

Definition default_dest (c : conf) : conf :=
  Conf (prg_alias c) (src_host c) (src_port c) (src_db c) (src_tbl c)
       (src_query c)
       (or_src (dst_host c) (src_host c))
       (or_src (dst_port c) (src_port c))
       (or_src (dst_db c) (src_db c))
       (or_src (dst_tbl c) (src_tbl c))
       (dst_file c)
       (prg_where c) (prg_limit c) (prg_sleep c) (prg_purge c)
       (prg_extra_args c) (prg_disable_binlog c) (prg_use_index c)
       (swp_drp c) (swp_table_suffix c).

(** The configuration [main] works with from line 128 on. *)
Definition resolve (today : string) (purge : gmap string pyval) : conf :=
  default_dest (conf_of_purge today purge).

(** ** The world outside the interpreter *)

(** Where a child's standard output and error go: the job's append-mode log
    stream, or a pipe the script reads. *)
Inductive stream : Type := ToLog | ToPipe.

(** A child process as [subprocess.Popen] is given it: its argument list,
    the argument list of the process feeding its standard input (the
    [mysqldump] side of the structure-replication pipe), and its output. *)
Record process : Type := Process {
  p_args : list string;
  p_stdin : option (list string);
  p_out : stream
}.

(** A (database, table) pair: the dicts of lines 149 and 357. *)
Record target : Type := Target { database : pyval; table : pyval }.

(** Outcome of connect/execute/fetchall (lines 347-350): one of the two
    handled exception classes, or the rows. *)
Inductive query_result : Type :=
| QFailed
| QRows (res : list (list pyval)).

(** The loaded job list: each top-level section is present or missing. *)
Record document : Type := Document {
  doc_ALL : option (gmap string pyval);
  doc_PURGE_LIST : option (list (gmap string pyval))
}.

(** Outcome of lines 78-80: an exception, of a class listed at line 81
    ([handled = true]) or of another class, or the parsed document. *)
Inductive load_result : Type :=
| LoadFailed (handled : bool)
| Loaded (data : document).

Class Outside : Type := {
  World : Type;
  (** [open(cfg_path).read()] and [yaml.safe_load]. *)
  safe_load : World -> string -> load_result;
  (** [time.strftime('%Y%m%d')]. *)
  strftime_Ymd : World -> string;
  (** [Popen(...)] followed by [communicate()]: the child runs to
      completion and leaves its [returncode]. *)
  communicate : World -> process -> World * Z;
  (** [mysql.connect], [cursor.execute], [cursor.fetchall]. *)
  fetchall : World -> pyval -> pyval -> pyval -> World * query_result
}.

(** ** What the script does, in order *)

Inductive log_record : Type :=
| LogCouldNotRead (cfg_path : string)               (* line 82 *)
| LogPurgeStarted                                   (* line 129 *)
| LogSwapDropRange (alias : pyval)                  (* line 132 *)
| LogNoWhere (alias : pyval)                        (* line 136 *)
| LogPurgeFailedCheck (alias : pyval) (msg : string) (* line 176 *)
| LogPurgeFailed                                    (* line 178 *)
| LogPurgeComplete (alias : pyval)                  (* lines 186-187 *)
| LogPurgeFinished                                  (* line 189 *)
| LogUnhandled                                      (* line 191 *)
| LogRunning (alias : pyval) (output : string)      (* line 323 *)
| LogQueryError                                     (* line 352 *)
| LogIndexError.                                    (* line 359 *)

Inductive printed : Type :=
| PrintLine (s : string)          (* print of a string *)
| PrintList (l : list pyval)      (* print(str(cmd)) of an argument list *)
| PrintOut                        (* print(out) *)
| PrintErr.                       (* print(err) *)

Inductive event : Type :=
| EvLog (r : log_record)
| EvOpenLog (path : string)
| EvPrint (p : printed)
| EvSpawn (args : list string)
| EvRun (p : process) (returncode : Z)
| EvQuery (host port sql : pyval).

(** [EvSpawn]: a [Popen] the script does not wait for (line 241).
    [EvRun]: a [Popen] with [communicate()] and the [returncode] read. *)

Definition is_step (e : event) : bool :=
  match e with
  | EvSpawn _ | EvRun _ _ => true
  | _ => false
  end.

(** How a piece of [main] ends: it falls through with a value, raises,
    executes [return] (lines 83, 133, 137), or calls [sys.exit]. *)
Inductive result (A : Type) : Type :=
| Val (a : A)
| Raise (e : exn)
| Return
| Exit (code : Z).

Arguments Val {A} a.
Arguments Raise {A} e.
Arguments Return {A}.
Arguments Exit {A} code.

Record options : Type := Options {
  opt_conf : option string;
  opt_lockfile : option string;
  opt_alias : option string;
  dry_run : bool;
  stop_on_error : bool
}.

Definition LOGGING_DIR : string := "/var/log/percona".
Definition PT_ARCHIVER_BIN : string := "/usr/bin/pt-archiver".
Definition CFG_FILE : string := "/etc/rdba/purge_tables.yml".

(** ** The effect monad *)

Section Engine.

Context `{Outside}.

Record state : Type := State { world : World; trace : list event }.

Definition M (A : Type) : Type := state -> result A * state.

Definition ret {A} (a : A) : M A := fun st => (Val a, st).

Definition bind {A B} (c : M A) (k : A -> M B) : M B :=
  fun st =>
    match c st with
    | (Val a, st') => k a st'
    | (Raise e, st') => (Raise e, st')
    | (Return, st') => (Return, st')
    | (Exit code, st') => (Exit code, st')
    end.

Definition raise {A} (e : exn) : M A := fun st => (Raise e, st).
Definition return_from_main {A} : M A := fun st => (Return, st).
Definition sys_exit {A} (code : Z) : M A := fun st => (Exit code, st).

Definition emit (e : event) : M unit :=
  fun st => (Val tt, State (world st) (trace st ++ [e])).

Definition logging (r : log_record) : M unit := emit (EvLog r).
Definition print (p : printed) : M unit := emit (EvPrint p).

Definition lift {A} (x : exn + A) : M A :=
  match x with
  | inl e => raise e
  | inr a => ret a
  end.

Definition strftime : M string := fun st => (Val (strftime_Ymd (world st)), st).

End Engine.

Notation "'let*' x ':=' c 'in' k" := (bind c (fun x => k))
  (at level 10, x name, c at level 100, k at level 200).
Notation "c '>>' k" := (bind c (fun _ => k))
  (at level 100, k at level 200, right associativity).

(** ** The script *)

Section Script.

Context `{Outside}.

(** [' '.join(cmd)]: raises when an item is not a string. *)
Definition join (cmd : list pyval) : M string :=
  match strings_of cmd with
  | Some ss => ret (join_space ss)
  | None => raise TypeError
  end.

(** [Popen(args, ...)], [communicate()], [returncode].  [Popen] raises
    when an argument is not a string, before any child exists. *)
Definition run_process (p : process) : M Z :=
  fun st =>
    let (w, returncode) := communicate (world st) p in
    (Val returncode, State w (trace st ++ [EvRun p returncode])).

Definition popen (cmd : list pyval) (stdin : option (list string)) (out : stream) : M Z :=
  match strings_of cmd with
  | Some ss => run_process (Process ss stdin out)
  | None => raise TypeError
  end.

(** [Popen(args, stdout=subprocess.PIPE)] that is not waited for. *)
Definition popen_nowait (cmd : list pyval) : M (list string) :=
  match strings_of cmd with
  | Some ss => emit (EvSpawn ss) >> ret ss
  | None => raise TypeError
  end.

(** The [mysql] client line shared by the three DDL steps. *)
Definition mysql_cmd (src_db : pyval) (c : conf) (sql_cmd : string) : list pyval :=
  [PStr "mysql"; src_db;
   PStr ("-h" +:+ str (src_host c));
   PStr ("-P" +:+ str (src_port c));
   PStr ("-e" +:+ sql_cmd)].

(** Lines 193-207. *)
Definition drop_table (src_db src_tbl : pyval) (c : conf) (o : options) : M Z :=
  let sql_cmd := "DROP TABLE " +:+ str src_db +:+ "." +:+ str src_tbl +:+ ";" in
  let drp_cmd := mysql_cmd src_db c sql_cmd in
  if dry_run o then
    let* line := join drp_cmd in
    print (PrintLine line) >>
    print (PrintLine "NOTE: dry-run just shows the SQL for drop_table") >>
    ret 0
  else
    popen drp_cmd None ToLog.

(** Lines 209-248. *)
Definition swap_create_table (src_db src_tbl src_tbl_swapped : pyval)
    (c : conf) (o : options) : M Z :=
  let d := str src_db in
  let t := str src_tbl in
  let s := str src_tbl_swapped in
  let sql_cmd :=
    "CREATE TABLE " +:+ d +:+ "." +:+ t +:+ "_tmp LIKE " +:+ d +:+ "." +:+ t +:+ ";" +:+
    "RENAME TABLE " +:+ d +:+ "." +:+ t +:+ " TO " +:+ d +:+ "." +:+ s +:+ ", " +:+
    d +:+ "." +:+ t +:+ "_tmp TO " +:+ d +:+ "." +:+ t +:+ ";" in
  let drp_swp_cmd := mysql_cmd src_db c sql_cmd in
  let* r :=
    if dry_run o then
      print (PrintList drp_swp_cmd) >>
      print (PrintLine "[NOTE: dry-run just shows the SQL for swap_create_table]") >>
      ret 0
    else
      popen drp_swp_cmd None ToLog in
  if r =? 0 then
    let dump_cmd :=
      [PStr "mysqldump";
       PStr ("-h" +:+ str (src_host c));
       PStr ("-P" +:+ str (src_port c));
       PStr "--skip-opt"; PStr "--no-data"; PStr "--no-create-db";
       src_db; src_tbl_swapped] in
    let create_cmd :=
      [PStr "mysql";
       PStr ("-h" +:+ str (dst_host c));
       PStr ("-P" +:+ str (dst_port c));
       dst_db c] in
    if dry_run o then
      let* dump_line := join dump_cmd in
      print (PrintLine dump_line) >>
      let* create_line := join create_cmd in
      print (PrintLine create_line) >>
      ret r
    else
      let* dump_args := popen_nowait dump_cmd in
      popen create_cmd (Some dump_args) ToLog
  else
    ret r.

(** Lines 250-269. *)
Definition swap_drop_runner (src_db src_tbl : pyval) (c : conf) (o : options) : M Z :=
  let t := str src_tbl in
  let sql_cmd := "CREATE TABLE " +:+ t +:+ "_new like " +:+ t +:+ ";" in
  let sql_cmd := sql_cmd +:+ " RENAME TABLE " +:+ t +:+ " TO " +:+ t +:+ "_old, " +:+
                 t +:+ "_new To " +:+ t +:+ ";" in
  let sql_cmd := sql_cmd +:+ " DROP TABLE " +:+ t +:+ "_old" in
  let drp_swp_cmd := mysql_cmd src_db c sql_cmd in
  if dry_run o then
    print (PrintList drp_swp_cmd) >>
    print (PrintLine "[NOTE: dry-run just shows the SQL for swap-drop]") >>
    ret 0
  else
    popen drp_swp_cmd None ToLog.

(** Lines 274-284: the source DSN. *)
Definition source_args (src_db src_tbl : pyval) (c : conf) : string :=
  if truthy (prg_use_index c) then
    "--source=h=" +:+ str (src_host c) +:+ ",P=" +:+ str (src_port c) +:+
    ",D=" +:+ str src_db +:+ ",t=" +:+ str src_tbl +:+
    ",b=" +:+ str (prg_disable_binlog c) +:+ ",i=" +:+ str (prg_use_index c)
  else
    "--source=h=" +:+ str (src_host c) +:+ ",P=" +:+ str (src_port c) +:+
    ",D=" +:+ str src_db +:+ ",t=" +:+ str src_tbl +:+
    ",b=" +:+ str (prg_disable_binlog c).

(** Lines 286-297: the arguments every archiver run has. *)
Definition archiver_base (src_db src_tbl : pyval) (c : conf) : list string :=
  [PT_ARCHIVER_BIN; source_args src_db src_tbl c;
   "--where=" +:+ str (prg_where c);
   "--limit=" +:+ str (prg_limit c);
   "--progress=100000";
   "--why-quit";
   "--header";
   "--sleep=" +:+ str (prg_sleep c);
   "--statistics";
   "--skip-foreign-key-checks";
   "--commit-each";
   "--no-check-charset"].

(** Line 308: the destination DSN. *)
Definition dest_arg (c : conf) : string :=
  "--dest=h=" +:+ str (dst_host c) +:+ ",P=" +:+ str (dst_port c) +:+
  ",D=" +:+ str (dst_db c) +:+ ",t=" +:+ str (dst_tbl c) +:+
  ",b=" +:+ str (prg_disable_binlog c) +:+ ",L=yes".

(** Lines 302-314: what the [if]/[elif]/[else] extends the command with. *)
Definition archiver_mode (c : conf) : list string :=
  if truthy (prg_purge c) then ["--bulk-delete"; "--purge"]
  else if truthy (dst_file c) then
    ["--buffer"; "--bulk-delete"; "--file=" +:+ str (dst_file c)]
  else ["--bulk-insert"; dest_arg c].

(** Lines 316-317. *)
Definition archiver_dry_run (o : options) : list string :=
  if dry_run o then ["--dry-run"] else [].

(** Lines 319-320: [.split] exists on strings only. *)
Definition archiver_extra (c : conf) : exn + list string :=
  if truthy (prg_extra_args c) then
    match prg_extra_args c with
    | PStr s => inr (split_space s)
    | _ => inl AttributeError
    end
  else inr [].

(** Lines 274-320: the archiver's argument list. *)
Definition pt_archiver_cmd (src_db src_tbl : pyval) (c : conf) (o : options)
    : exn + list string :=
  match archiver_extra c with
  | inl e => inl e
  | inr extra =>
      inr (archiver_base src_db src_tbl c ++ archiver_mode c ++
           archiver_dry_run o ++ extra)
  end.

(** Lines 271-338. *)
Definition pt_archive_runner (src_db src_tbl : pyval) (c : conf) (o : options) : M Z :=
  let* cmd := lift (pt_archiver_cmd src_db src_tbl c o) in
  logging (LogRunning (prg_alias c) (join_space cmd)) >>
  if dry_run o then
    let* r := run_process (Process cmd None ToPipe) in
    print PrintOut >>
    print PrintErr >>
    ret r
  else
    run_process (Process cmd None ToLog).

(** Lines 355-359: one target per row until a row lacks a second column. *)
Fixpoint collect_rows (res : list (list pyval)) (tables : list target)
    : list target * bool :=
  match res with
  | [] => (tables, false)
  | row :: res' =>
      match row with
      | c0 :: c1 :: _ => collect_rows res' (tables ++ [Target c0 c1])
      | _ => (tables, true)
      end
  end.

(** Lines 347-350: connect, execute, fetch. *)
Definition run_query (host port sql : pyval) : M query_result :=
  fun st =>
    let (w, q) := fetchall (world st) host port sql in
    (Val q, State w (trace st ++ [EvQuery host port sql])).

(** Lines 340-361. *)
Definition get_tables_from_query (host port sql : pyval) : M (list target) :=
  let* q := run_query host port sql in
  match q with
  | QFailed => logging LogQueryError >> ret []
  | QRows res =>
      let (tables, index_error) := collect_rows res [] in
      if index_error then logging LogIndexError >> ret tables
      else ret tables
  end.

(** The local variables of [main] that the loop over targets reads and
    writes.  [ret] is unbound until a branch of lines 156-172 assigns it.
    [statuses] is a ghost variable, not one of the source: the [ret] of
    every target handled so far, oldest first. *)
Record locals : Type := Locals {
  l_conf : conf;
  error_on_alias : list pyval;
  l_ret : option Z;
  statuses : list Z
}.

Definition assign_ret (l : locals) (c : conf) (r : Z) : locals :=
  Locals c (error_on_alias l) (Some r) (statuses l).

(** Lines 153-172: the strategy dispatcher for one target. *)
Definition dispatch (o : options) (tbl : target) (l : locals) : M locals :=
  let src_db := database tbl in
  let src_tbl := table tbl in
  let c := l_conf l in
  if Py.eq (swp_drp c) (PInt 0) then
    let* r := pt_archive_runner src_db src_tbl c o in
    ret (assign_ret l c r)
  else if Py.eq (swp_drp c) (PInt 1) then
    let* r := swap_drop_runner src_db src_tbl c o in
    ret (assign_ret l c r)
  else if Py.eq (swp_drp c) (PInt 2) then
    let* prefix := lift (concat src_tbl (PStr "_")) in
    let* src_tbl_swapped := lift (concat prefix (swp_table_suffix c)) in
    let* r := swap_create_table src_db src_tbl src_tbl_swapped c o in
    if r =? 0 then
      let c' := set_dst_tbl c src_tbl_swapped in
      let* r := pt_archive_runner src_db src_tbl_swapped c' o in
      if r =? 0 then
        let* r := drop_table src_db src_tbl_swapped c' o in
        ret (assign_ret l c' r)
      else ret (assign_ret l c' r)
    else ret (assign_ret l c r)
  else ret l.

(** Lines 174-182: what follows the dispatcher in the loop body. *)
Definition after_target (o : options) (prg_log_file : string) (l : locals) : M locals :=
  match l_ret l with
  | None => raise UnboundLocalError
  | Some r =>
      let l := Locals (l_conf l) (error_on_alias l) (l_ret l) (statuses l ++ [r]) in
      if negb (r =? 0) then
        let msg := "Check " +:+ prg_log_file in
        let alias := prg_alias (l_conf l) in
        logging (LogPurgeFailedCheck alias msg) >>
        let l := Locals (l_conf l) (error_on_alias l ++ [alias]) (l_ret l) (statuses l) in
        logging LogPurgeFailed >>
        if stop_on_error o then sys_exit 1 else ret l
      else ret l
  end.

Definition target_body (o : options) (prg_log_file : string) (tbl : target)
    (l : locals) : M locals :=
  let* l := dispatch o tbl l in
  after_target o prg_log_file l.

(** Lines 152-182: [for table in tables_to_purge]. *)
Fixpoint targets_loop (o : options) (prg_log_file : string)
    (tables_to_purge : list target) (l : locals) : M locals :=
  match tables_to_purge with
  | [] => ret l
  | tbl :: rest =>
      let* l := target_body o prg_log_file tbl l in
      targets_loop o prg_log_file rest l
  end.

(** Lines 139-142. *)
Definition log_file_of (alias : pyval) (today : string) : string :=
  LOGGING_DIR +:+ "/" +:+ "purge_tables-" +:+ str alias +:+ "-" +:+ today +:+ ".log".

(** Lines 145-149. *)
Definition enumerate (c : conf) : M (list target) :=
  if truthy (src_query c) then
    get_tables_from_query (src_host c) (src_port c) (src_query c)
  else ret [Target (src_db c) (src_tbl c)].

(** Lines 184-189. *)
Definition report (c : conf) (l : locals) : M unit :=
  (if negb (is_in (prg_alias c) (error_on_alias l))
   then logging (LogPurgeComplete (prg_alias c))
   else ret tt) >>
  logging LogPurgeFinished.

(** Lines 139-189: one job, once its configuration passed the two checks. *)
Definition run_job (o : options) (c : conf) : M unit :=
  let* today := strftime in
  let prg_log_file := log_file_of (prg_alias c) today in
  emit (EvOpenLog prg_log_file) >>
  let* tables_to_purge := enumerate c in
  let* l := targets_loop o prg_log_file tables_to_purge (Locals c [] None []) in
  report (l_conf l) l.

(** Lines 101-189: the body of [for purge in purges]. *)
Definition process_purge (o : options) (purge : gmap string pyval) : M unit :=
  let* today := strftime in
  let c := resolve today purge in
  logging LogPurgeStarted >>
  if negb (is_in (swp_drp c) [PInt 0; PInt 1; PInt 2]) then
    logging (LogSwapDropRange (prg_alias c)) >>
    return_from_main
  else if negb (truthy (prg_where c)) && Py.eq (swp_drp c) (PInt 0) then
    logging (LogNoWhere (prg_alias c)) >>
    return_from_main
  else run_job o c.

(** Line 99: [for purge in purges]. *)
Fixpoint purges_loop (o : options) (purges : list (gmap string pyval)) : M unit :=
  match purges with
  | [] => ret tt
  | purge :: rest => process_purge o purge >> purges_loop o rest
  end.

(** Line 97: [[b for b in purges if options.alias == b['ALIAS']]]. *)
Fixpoint select_alias (alias : string) (purges : list (gmap string pyval))
    : exn + list (gmap string pyval) :=
  match purges with
  | [] => inr []
  | b :: rest =>
      match b !! "ALIAS" with
      | None => inl (KeyError "ALIAS")
      | Some a =>
          match select_alias alias rest with
          | inl e => inl e
          | inr bs => inr (if Py.eq (PStr alias) a then b :: bs else bs)
          end
      end
  end.

(** [data[key]]. *)
Definition getitem {A} (key : string) (section : option A) : exn + A :=
  match section with
  | Some v => inr v
  | None => inl (KeyError key)
  end.

(** Lines 78-80. *)
Definition load_config (cfg_path : string) : M load_result :=
  fun st => (Val (safe_load (world st) cfg_path), st).

(** Lines 72-189: the body of the outer [try]. *)
Definition main_body (o : options) : M unit :=
  let cfg_path := default CFG_FILE (opt_conf o) in
  let* loaded := load_config cfg_path in
  match loaded with
  | LoadFailed true => logging (LogCouldNotRead cfg_path) >> return_from_main
  | LoadFailed false => raise OtherError
  | Loaded data =>
      let* default_purge := lift (getitem "ALL" (doc_ALL data)) in
      let* purge_list := lift (getitem "PURGE_LIST" (doc_PURGE_LIST data)) in
      let purge_data_list := map (merge default_purge) purge_list in
      let* purges :=
        match opt_alias o with
        | None => ret purge_data_list
        | Some alias => lift (select_alias alias purge_data_list)
        end in
      purges_loop o purges
  end.

(** Lines 190-191 and the end of [main]: [except Exception] catches what
    was raised and logs it; [return] leaves [main]; [SystemExit] is not an
    [Exception] and passes. *)
Definition outer_handler (r : result unit * state) : result unit * state :=
  match r with
  | (Raise _, st') => logging LogUnhandled st'
  | (Return, st') => (Val tt, st')
  | r => r
  end.

(** Lines 57-191. *)
Definition main (o : options) : M unit :=
  fun st => outer_handler (main_body o st).

(** The exit status of the process running [main()]. *)
Definition exit_status {A} (r : result A) : Z :=
  match r with
  | Val _ | Return => 0
  | Raise _ => 1
  | Exit code => code
  end.

End Script.

(** ** Vocabulary of the properties *)

(** The four connection coordinates of line 124. *)
Inductive coordinate : Type := Host | Port | Db | Tbl.

Definition dest_key (k : coordinate) : string :=
  match k with
  | Host => "DEST_HOST"
  | Port => "DEST_PORT"
  | Db => "DEST_DB"
  | Tbl => "DEST_TABLE"
  end.

Definition src_of (k : coordinate) (c : conf) : pyval :=
  match k with
  | Host => src_host c
  | Port => src_port c
  | Db => src_db c
  | Tbl => src_tbl c
  end.

Definition dst_of (k : coordinate) (c : conf) : pyval :=
  match k with
  | Host => dst_host c
  | Port => dst_port c
  | Db => dst_db c
  | Tbl => dst_tbl c
  end.






(** The target a well-formed row stands for. *)
Definition row_target (row : list pyval) : target :=
  Target (nth 0 row PNone) (nth 1 row PNone).

(** The record that tells a target's failure (line 176). *)
Definition is_failure_record (e : event) : bool :=
  match e with
  | EvLog (LogPurgeFailedCheck _ _) => true
  | _ => false
  end.

Section StateVocabulary.

Context `{Outside}.

(** The state after further events, the world being as it was. *)
Definition after_events (st : state) (evs : list event) : state :=
  State (world st) (trace st ++ evs).

(** A computation's outcome followed by what comes next: only a value
    lets the rest run; an exception, a [return] or an exit passes on. *)
Definition skip_rest {A B} (r : result A * state) (k : A -> state -> result B * state)
    : result B * state :=
  match r with
  | (Val a, st) => k a st
  | (Raise e, st) => (Raise e, st)
  | (Return, st) => (Return, st)
  | (Exit code, st) => (Exit code, st)
  end.

(** Events none of which tells a target's failure. *)
Definition quiet (evs : list event) : Prop :=
  Forall (fun e => is_failure_record e = false) evs.

(** The discipline every part of [main] keeps about failures: a
    computation only adds events to the trace; either it does not exit
    the process, and under stop-on-error it has logged no failure; or
    stop-on-error is set, it exits with status 1, and the failure record
    followed by the "Purge failed" line is the last thing it did. *)
Definition sound (o : options) {A} (c : M A) : Prop :=
  forall st r st', c st = (r, st') ->
  exists evs, trace st' = trace st ++ evs /\
    (((forall code, r <> Exit code) /\ (stop_on_error o = true -> quiet evs)) \/
     (stop_on_error o = true /\ r = Exit 1 /\
      exists evs0 alias msg,
        quiet evs0 /\
        evs = evs0 ++ [EvLog (LogPurgeFailedCheck alias msg); EvLog LogPurgeFailed])).

(** A load that leaves no usable job list: the document could not be read
    or parsed, or a top-level section is missing. *)
Definition load_failed (r : load_result) : bool :=
  match r with
  | LoadFailed _ => true
  | Loaded data =>
      match doc_ALL data, doc_PURGE_LIST data with
      | Some _, Some _ => false
      | _, _ => true
      end
  end.

End StateVocabulary.

(** ** A scripted outside world

    A world that answers from a script: the child processes return the
    listed codes in order (0 once the list is used up), the lookup query and
    the loader always give the same answer, the date is fixed. *)

Record script : Type := Script {
  sc_load : load_result;
  sc_today : string;
  sc_codes : list Z;
  sc_query : query_result
}.

Definition scripted : Outside :=
  {| World := script;
     safe_load := fun w _ => sc_load w;
     strftime_Ymd := sc_today;
     communicate := fun w _ =>
       (Script (sc_load w) (sc_today w) (tail (sc_codes w)) (sc_query w),
        hd 0 (sc_codes w));
     fetchall := fun w _ _ _ => (w, sc_query w) |}.

Definition start (w : script) : @state scripted := @State scripted w [].

Definition no_options : options := Options None None None false false.
Definition stop_options : options := Options None None None false true.
Definition dry_options : options := Options None None None true false.

(** A job list with one archive-only job, as in the specification's first
    end-to-end scenario. *)
Definition archive_job : gmap string pyval :=
  <["ALIAS" := PStr "orders"]> (<["SOURCE_DB" := PStr "shop"]>
  (<["SOURCE_TABLE" := PStr "orders"]> (<["WHERE" := PStr "id<100"]>
  (<["LIMIT" := PInt 500]> ∅)))).

(** A swap-archive-drop job fed by a lookup query. *)
Definition swap_job : gmap string pyval :=
  <["ALIAS" := PStr "logs"]> (<["SOURCE_QUERY" := PStr "SELECT 1"]>
  (<["SWAP_DROP" := PInt 2]> (<["SWP_TABLE_SUFFIX" := PStr "old"]>
  (<["DEST_DB" := PStr "archive"]> ∅)))).

Definition two_rows : query_result :=
  QRows [[PStr "db1"; PStr "t1"]; [PStr "db2"; PStr "t2"]].

Definition doc_of (jobs : list (gmap string pyval)) : load_result :=
  Loaded (Document (Some ∅) (Some jobs)).

(** ** The elapsed-time text (lines 363-370) *)

(** ['%02i' % n] on an integer: at least two characters, padded with a zero
    on the left; a sign counts as a character. *)
Definition fmt_02i (n : Z) : string :=
  if (0 <=? n) && (n <? 10) then "0" +:+ str (PInt n) else str (PInt n).

(** [format_seconds_to_hhmmss] on a whole number of seconds: [//] and [%]
    are floor division and its remainder.  [main] passes a float, which is
    outside the model. *)
Definition format_seconds_to_hhmmss (seconds : Z) : string :=
  let hours := seconds / (60 * 60) in
  let seconds := seconds mod (60 * 60) in
  let minutes := seconds / 60 in
  let seconds := seconds mod 60 in
  fmt_02i hours +:+ ":" +:+ fmt_02i minutes +:+ ":" +:+ fmt_02i seconds.

(** ** Vocabulary of the further properties *)

(** A row the loop of lines 356-357 can read: it has a second column. *)
Definition well_formed (row : list pyval) : bool := (2 <=? length row)%nat.

(** The rows before the first one that lacks a second column. *)
Fixpoint rows_before_malformed (res : list (list pyval)) : list (list pyval) :=
  match res with
  | [] => []
  | row :: res' => if well_formed row then row :: rows_before_malformed res' else []
  end.

(** Whether a job mapping has the key, and the jobs an alias selects. *)
Definition has_alias (b : gmap string pyval) : bool :=
  match b !! "ALIAS" with
  | Some _ => true
  | None => false
  end.

Definition alias_is (alias : string) (b : gmap string pyval) : bool :=
  Py.eq (PStr alias) (get b "ALIAS").

(** An event a simulated run may leave: no process but the archiver, told
    to simulate and with its output captured. *)
Definition simulated (e : event) : Prop :=
  match e with
  | EvRun p _ =>
      hd_error (p_args p) = Some PT_ARCHIVER_BIN /\
      In "--dry-run" (p_args p) /\
      p_out p = ToPipe
  | EvSpawn _ => False
  | _ => True
  end.

(** Two configurations that differ at most in the destination table. *)
Definition same_but_dst_tbl (c c' : conf) : Prop :=
  set_dst_tbl c PNone = set_dst_tbl c' PNone.

Definition result_map {A B} (f : A -> B) (r : result A) : result B :=
  match r with
  | Val a => Val (f a)
  | Raise e => Raise e
  | Return => Return
  | Exit code => Exit code
  end.

Section EventVocabulary.

Context `{Outside}.

(** A computation that only adds events to the trace, and what it adds
    satisfies [Q]. *)
Definition adds (Q : list event -> Prop) {A} (c : M A) : Prop :=
  forall st r st', c st = (r, st') ->
  exists evs, trace st' = trace st ++ evs /\ Q evs.

(** A computation all of whose events have the property. *)
Definition emits (P : event -> Prop) {A} (c : M A) : Prop :=
  adds (Forall P) c.

(** A computation that starts at most [n] processes. *)
Definition steps_at_most (n : nat) {A} (c : M A) : Prop :=
  adds (fun evs => (length (List.filter is_step evs) <= n)%nat) c.

(** The loop variables with another configuration. *)
Definition with_conf (l : locals) (c : conf) : locals :=
  Locals c (error_on_alias l) (l_ret l) (statuses l).

End EventVocabulary.

(** * Properties *)

(** ** Python values *)

Example str_int : Py.str (PInt 3306) = "3306".
Proof. reflexivity. Qed.

Example str_none : Py.str PNone = "None".
Proof. reflexivity. Qed.

Example eq_true_one : Py.eq (PBool true) (PInt 1) = true.
Proof. reflexivity. Qed.

Example split_double_space : split_space "a  b" = ["a"; ""; "b"].
Proof. reflexivity. Qed.

Example join_three : join_space ["mysql"; "db"; "-hlocalhost"] = "mysql db -hlocalhost".
Proof. reflexivity. Qed.

Lemma py_eq_refl (v : pyval) : Py.eq v v = true.
Proof.
  destruct v as [| b | z | s]; simpl.
  - reflexivity.
  - destruct b; reflexivity.
  - apply Z.eqb_refl.
  - apply String.eqb_refl.
Qed.

Lemma py_eq_int_inv (v : pyval) (n : Z) :
  Py.eq v (PInt n) = true -> as_int v = Some n.
Proof.
  destruct v as [| b | z | s]; simpl; try discriminate.
  - destruct b; intros E; apply Z.eqb_eq in E; now subst.
  - intros E; apply Z.eqb_eq in E; now subst.
Qed.

Lemma py_eq_int_distinct (v : pyval) (n m : Z) :
  Py.eq v (PInt n) = true -> n <> m -> Py.eq v (PInt m) = false.
Proof.
  intros E Hnm. apply py_eq_int_inv in E.
  destruct v as [| b | z | s]; simpl in *; try discriminate.
  - injection E as <-. now apply Z.eqb_neq.
  - injection E as <-. now apply Z.eqb_neq.
Qed.

(** A selector equal to 0, 1 or 2 is accepted by line 131, and nothing else is. *)
Lemma is_in_selectors (v : pyval) :
  is_in v [PInt 0; PInt 1; PInt 2] = true <->
  Py.eq v (PInt 0) = true \/ Py.eq v (PInt 1) = true \/ Py.eq v (PInt 2) = true.
Proof.
  unfold is_in; simpl. rewrite !orb_true_iff. intuition discriminate.
Qed.

Lemma split_space_nonempty (s : string) : split_space s <> [].
Proof.
  induction s as [| c s IH]; simpl; [discriminate |].
  destruct (Ascii.eqb c " "); [discriminate |].
  destruct (split_space s); discriminate.
Qed.

(** ** Configuration resolution *)

Lemma merge_lookup (default_purge purge : gmap string pyval) (key : string) :
  merge default_purge purge !! key =
  match purge !! key with
  | Some v => Some v
  | None => default_purge !! key
  end.
Proof.
  unfold merge. destruct (purge !! key) as [v |] eqn:E.
  - now apply lookup_union_Some_l.
  - now apply lookup_union_r.
Qed.

Lemma or_src_idempotent (dst src : pyval) : or_src (or_src dst src) src = or_src dst src.
Proof.
  unfold or_src. destruct (truthy dst) eqn:E.
  - now rewrite E.
  - now destruct (truthy src).
Qed.

Lemma default_dest_idempotent (c : conf) : default_dest (default_dest c) = default_dest c.
Proof.
  destruct c; unfold default_dest; simpl. now rewrite !or_src_idempotent.
Qed.

(** C7: in a resolved job configuration, a destination coordinate (host,
    port, database, table) whose key is absent from the merged record of
    template and override equals the source coordinate's final value; the
    defaulting works on the merged record and leaves the source values as
    the merge gave them, and it covers the four coordinates alike. *)
Theorem C7_destination_defaults_to_source
    (today : string) (template override : gmap string pyval) (k : coordinate) :
  merge template override !! dest_key k = None ->
  dst_of k (resolve today (merge template override)) =
    src_of k (resolve today (merge template override)) /\
  src_of k (resolve today (merge template override)) =
    src_of k (conf_of_purge today (merge template override)).
Proof.
  intros Habsent.
  destruct k; simpl in *; unfold or_src, get; rewrite Habsent; simpl; split; reflexivity.
Qed.

Lemma C7_destination_defaults_to_source_witness :
  let template : gmap string pyval := <["SOURCE_HOST" := PStr "db-template"]> ∅ in
  let override : gmap string pyval :=
    <["ALIAS" := PStr "orders"]> (<["SOURCE_HOST" := PStr "db-main"]> ∅) in
  merge template override !! dest_key Host = None /\
  dst_of Host (resolve "20240101" (merge template override)) = PStr "db-main".
Proof.
  intros template override. split; [reflexivity |].
  etransitivity.
  - apply (C7_destination_defaults_to_source "20240101" template override Host).
    reflexivity.
  - reflexivity.
Defined.

(** ** The archiver's command line *)









(** ** How computations compose *)

Section Properties.

Context `{Outside}.

Lemma bind_Val {A B} (c : M A) (k : A -> M B) (st st' : state) (a : A) :
  c st = (Val a, st') -> bind c k st = k a st'.
Proof. unfold bind. now intros ->. Qed.

Lemma bind_Raise {A B} (c : M A) (k : A -> M B) (st st' : state) (e : exn) :
  c st = (Raise e, st') -> bind c k st = (Raise e, st').
Proof. unfold bind. now intros ->. Qed.

Lemma bind_Return {A B} (c : M A) (k : A -> M B) (st st' : state) :
  c st = (Return, st') -> bind c k st = (Return, st').
Proof. unfold bind. now intros ->. Qed.

Lemma bind_Exit {A B} (c : M A) (k : A -> M B) (st st' : state) (code : Z) :
  c st = (Exit code, st') -> bind c k st = (Exit code, st').
Proof. unfold bind. now intros ->. Qed.

Lemma bind_skip_rest {A B} (c : M A) (k : A -> M B) (st : state) :
  bind c k st = skip_rest (c st) k.
Proof. reflexivity. Qed.

Lemma purges_loop_app (o : options) (pre post : list (gmap string pyval)) (st : state) :
  purges_loop o (pre ++ post) st =
  skip_rest (purges_loop o pre st) (fun _ => purges_loop o post).
Proof.
  revert st. induction pre as [| purge pre IH]; intros st; [reflexivity |].
  cbn [app purges_loop]. unfold bind.
  destruct (process_purge o purge st) as [[[] | e | | code] st']; cbn; auto.
Qed.

Lemma targets_loop_app (o : options) (f : string) (pre post : list target)
    (l : locals) (st : state) :
  targets_loop o f (pre ++ post) l st =
  skip_rest (targets_loop o f pre l st) (targets_loop o f post).
Proof.
  revert l st. induction pre as [| tbl pre IH]; intros l st; [reflexivity |].
  cbn [app targets_loop]. unfold bind.
  destruct (target_body o f tbl l st) as [[l' | e | | code] st']; cbn; auto.
Qed.

(** ** Validation (lines 131-137) *)

Ltac open_process_purge :=
  unfold process_purge, bind, strftime, logging, emit, return_from_main;
  cbn [swp_drp prg_where prg_alias resolve default_dest conf_of_purge].

Lemma process_purge_bad_selector (o : options) (purge : gmap string pyval) (st : state) :
  is_in (get_or purge "SWAP_DROP" (PInt 0)) [PInt 0; PInt 1; PInt 2] = false ->
  process_purge o purge st =
  (Return, after_events st [EvLog LogPurgeStarted;
                            EvLog (LogSwapDropRange (get purge "ALIAS"))]).
Proof.
  intros Hsel. open_process_purge.
  rewrite Hsel. cbn. unfold after_events. now rewrite <- app_assoc.
Qed.

Lemma process_purge_no_where (o : options) (purge : gmap string pyval) (st : state) :
  Py.eq (get_or purge "SWAP_DROP" (PInt 0)) (PInt 0) = true ->
  truthy (get purge "WHERE") = false ->
  process_purge o purge st =
  (Return, after_events st [EvLog LogPurgeStarted;
                            EvLog (LogNoWhere (get purge "ALIAS"))]).
Proof.
  intros Hsel Hwhere.
  assert (Hin : is_in (get_or purge "SWAP_DROP" (PInt 0)) [PInt 0; PInt 1; PInt 2] = true)
    by (apply is_in_selectors; auto).
  open_process_purge.
  rewrite Hin, Hwhere, Hsel. cbn. unfold after_events. now rewrite <- app_assoc.
Qed.


Lemma main_body_loaded (o : options) (st : state)
    (default_purge : gmap string pyval) (purge_list : list (gmap string pyval)) :
  opt_alias o = None ->
  safe_load (world st) (default CFG_FILE (opt_conf o)) =
    Loaded (Document (Some default_purge) (Some purge_list)) ->
  main_body o st = purges_loop o (map (merge default_purge) purge_list) st.
Proof.
  intros Halias Hload. unfold main_body, bind, load_config. rewrite Hload, Halias. reflexivity.
Qed.

(** C2: a job whose strategy selector is none of 0, 1, 2 fails the first
    check: the only things done for it are the two log records of lines
    129 and 132, no command is built and no step runs, and [main] returns,
    so that no alias after it is processed.  In a run this holds at any
    position of the job list: whatever comes after the job has no effect. *)
Theorem C2_invalid_selector_abandons_run
    (o : options) (purge : gmap string pyval)
    (pre rest : list (gmap string pyval)) (st : state) :
  is_in (get_or purge "SWAP_DROP" (PInt 0)) [PInt 0; PInt 1; PInt 2] = false ->
  process_purge o purge st =
    (Return, after_events st [EvLog LogPurgeStarted;
                              EvLog (LogSwapDropRange (get purge "ALIAS"))]) /\
  purges_loop o (pre ++ purge :: rest) st =
    skip_rest (purges_loop o pre st)
      (fun _ st' =>
         (Return, after_events st' [EvLog LogPurgeStarted;
                                    EvLog (LogSwapDropRange (get purge "ALIAS"))])) /\
  outer_handler (purges_loop o (pre ++ purge :: rest) st) =
    outer_handler (purges_loop o (pre ++ [purge]) st).
Proof.
  intros Hsel.
  assert (Hloop : forall tail st0,
    purges_loop o (pre ++ purge :: tail) st0 =
    skip_rest (purges_loop o pre st0)
      (fun _ st' =>
         (Return, after_events st' [EvLog LogPurgeStarted;
                                    EvLog (LogSwapDropRange (get purge "ALIAS"))]))).
  { intros tail st0. rewrite purges_loop_app.
    destruct (purges_loop o pre st0) as [[[] | e | | code] st']; cbn [skip_rest]; auto.
    cbn [purges_loop]. apply bind_Return. now apply process_purge_bad_selector. }
  split; [now apply process_purge_bad_selector |].
  split; [apply Hloop |].
  now rewrite !Hloop.
Qed.

(** C3: an archive-only job (selector 0) whose WHERE predicate is absent or
    empty fails the second check: the only things done for it are the log
    records of lines 129 and 136, no command is built, and [main] returns,
    which abandons the aliases after it as well. *)
Theorem C3_archive_only_needs_where
    (o : options) (purge : gmap string pyval)
    (pre rest : list (gmap string pyval)) (st : state) :
  Py.eq (get_or purge "SWAP_DROP" (PInt 0)) (PInt 0) = true ->
  truthy (get purge "WHERE") = false ->
  process_purge o purge st =
    (Return, after_events st [EvLog LogPurgeStarted;
                              EvLog (LogNoWhere (get purge "ALIAS"))]) /\
  purges_loop o (pre ++ purge :: rest) st =
    skip_rest (purges_loop o pre st)
      (fun _ st' =>
         (Return, after_events st' [EvLog LogPurgeStarted;
                                    EvLog (LogNoWhere (get purge "ALIAS"))])) /\
  outer_handler (purges_loop o (pre ++ purge :: rest) st) =
    outer_handler (purges_loop o (pre ++ [purge]) st).
Proof.
  intros Hsel Hwhere.
  assert (Hloop : forall tail st0,
    purges_loop o (pre ++ purge :: tail) st0 =
    skip_rest (purges_loop o pre st0)
      (fun _ st' =>
         (Return, after_events st' [EvLog LogPurgeStarted;
                                    EvLog (LogNoWhere (get purge "ALIAS"))]))).
  { intros tail st0. rewrite purges_loop_app.
    destruct (purges_loop o pre st0) as [[[] | e | | code] st']; cbn [skip_rest]; auto.
    cbn [purges_loop]. apply bind_Return. now apply process_purge_no_where. }
  split; [now apply process_purge_no_where |].
  split; [apply Hloop |].
  now rewrite !Hloop.
Qed.

(** ** The archiver step *)




(** ** The strategy dispatcher *)

(** With selector 2 the dispatcher is its third branch. *)
Lemma dispatch_selector_2 (o : options) (src_db : pyval) (tbl sfx : string)
    (l : locals) (st : state) :
  Py.eq (swp_drp (l_conf l)) (PInt 2) = true ->
  swp_table_suffix (l_conf l) = PStr sfx ->
  dispatch o (Target src_db (PStr tbl)) l st =
  skip_rest
    (swap_create_table src_db (PStr tbl) (PStr ((tbl +:+ "_") +:+ sfx)) (l_conf l) o st)
    (fun r1 =>
       if r1 =? 0 then
         fun st1 =>
           skip_rest
             (pt_archive_runner src_db (PStr ((tbl +:+ "_") +:+ sfx))
                (set_dst_tbl (l_conf l) (PStr ((tbl +:+ "_") +:+ sfx))) o st1)
             (fun r2 =>
                if r2 =? 0 then
                  fun st2 =>
                    skip_rest
                      (drop_table src_db (PStr ((tbl +:+ "_") +:+ sfx))
                         (set_dst_tbl (l_conf l) (PStr ((tbl +:+ "_") +:+ sfx))) o st2)
                      (fun r3 =>
                         ret (assign_ret l
                                (set_dst_tbl (l_conf l) (PStr ((tbl +:+ "_") +:+ sfx))) r3))
                else
                  ret (assign_ret l
                         (set_dst_tbl (l_conf l) (PStr ((tbl +:+ "_") +:+ sfx))) r2))
       else ret (assign_ret l (l_conf l) r1)).
Proof.
  intros Hsel Hsfx. unfold dispatch. cbn [database table].
  rewrite (py_eq_int_distinct _ 2 0 Hsel) by lia.
  rewrite (py_eq_int_distinct _ 2 1 Hsel) by lia.
  rewrite Hsel, Hsfx. reflexivity.
Qed.

(** With selector 2, a table name or a suffix that is not a string makes the
    concatenation of line 163 raise before any step: nothing runs. *)
Lemma dispatch_selector_2_not_strings (o : options) (tbl : target) (l : locals)
    (st : state) :
  Py.eq (swp_drp (l_conf l)) (PInt 2) = true ->
  (forall t s, table tbl = PStr t -> swp_table_suffix (l_conf l) = PStr s -> False) ->
  dispatch o tbl l st = (Raise TypeError, st).
Proof.
  intros Hsel Hnot. unfold dispatch.
  rewrite (py_eq_int_distinct _ 2 0 Hsel) by lia.
  rewrite (py_eq_int_distinct _ 2 1 Hsel) by lia.
  rewrite Hsel.
  destruct (table tbl) as [| b | z | t] eqn:Et; try reflexivity.
  destruct (swp_table_suffix (l_conf l)) as [| b | z | s] eqn:Es; try reflexivity.
  now destruct (Hnot t s).
Qed.


(** ** Target enumeration *)

Lemma collect_rows_good (good : list (list pyval)) (tables : list target) :
  Forall (fun row => (2 <= length row)%nat) good ->
  collect_rows good tables = (tables ++ map row_target good, false).
Proof.
  intros Hgood. revert tables.
  induction Hgood as [| row good Hrow _ IH]; intros tables; cbn [collect_rows map].
  - now rewrite app_nil_r.
  - destruct row as [| c0 [| c1 row]]; cbn [length] in Hrow; try lia.
    rewrite IH. now rewrite <- app_assoc.
Qed.



(** ** Loading the job list *)

(** C9: when the job list cannot be read or parsed, or lacks one of its
    two top-level sections, [main] logs one error record and ends: the
    record of line 82 when the exception is one of those listed at line
    81, the record of line 191 otherwise.  The world is as it was and the
    trace holds nothing else, so no job was processed and no command ran. *)
Theorem C9_unusable_job_list_aborts (o : options) (st : state) :
  load_failed (safe_load (world st) (default CFG_FILE (opt_conf o))) = true ->
  main o st =
    (Val tt,
     after_events st
       [EvLog match safe_load (world st) (default CFG_FILE (opt_conf o)) with
              | LoadFailed true => LogCouldNotRead (default CFG_FILE (opt_conf o))
              | _ => LogUnhandled
              end]).
Proof.
  intros Hfail. unfold main, main_body, bind, load_config.
  destruct (safe_load (world st) (default CFG_FILE (opt_conf o)))
    as [[|] | [[dflt |] [jobs |]]]; cbn in Hfail; try discriminate; reflexivity.
Qed.

(** ** The failure discipline *)

Lemma quiet_app (evs1 evs2 : list event) : quiet evs1 -> quiet evs2 -> quiet (evs1 ++ evs2).
Proof. unfold quiet. intros H1 H2. apply Forall_app. now split. Qed.

(** A computation that only adds events which are no failure records and
    that never exits keeps the discipline. *)
Lemma sound_plain (o : options) {A} (c : M A) :
  (forall st r st', c st = (r, st') ->
     (forall code, r <> Exit code) /\
     exists evs, trace st' = trace st ++ evs /\ quiet evs) ->
  sound o c.
Proof.
  intros Hc st r st' Hrun. destruct (Hc st r st' Hrun) as (Hexit & evs & Htrace & Hquiet).
  exists evs. split; [exact Htrace |]. left. now split.
Qed.

Lemma sound_ret (o : options) {A} (a : A) : sound o (ret a).
Proof.
  apply sound_plain. intros st r st' [= <- <-]. split; [discriminate |].
  exists []. split; [now rewrite app_nil_r | constructor].
Qed.

Lemma sound_raise (o : options) {A} (e : exn) : sound o (raise (A := A) e).
Proof.
  apply sound_plain. intros st r st' [= <- <-]. split; [discriminate |].
  exists []. split; [now rewrite app_nil_r | constructor].
Qed.

Lemma sound_return_from_main (o : options) {A} : sound o (return_from_main (A := A)).
Proof.
  apply sound_plain. intros st r st' [= <- <-]. split; [discriminate |].
  exists []. split; [now rewrite app_nil_r | constructor].
Qed.

Lemma sound_lift (o : options) {A} (x : exn + A) : sound o (lift x).
Proof. destruct x; [apply sound_raise | apply sound_ret]. Qed.

Lemma sound_emit (o : options) (e : event) : is_failure_record e = false -> sound o (emit e).
Proof.
  intros He. apply sound_plain. intros st r st' [= <- <-]. split; [discriminate |].
  exists [e]. split; [reflexivity |]. now repeat constructor.
Qed.

Lemma sound_strftime (o : options) : sound o strftime.
Proof.
  apply sound_plain. intros st r st' [= <- <-]. split; [discriminate |].
  exists []. split; [now rewrite app_nil_r | constructor].
Qed.

Lemma sound_load_config (o : options) (cfg_path : string) : sound o (load_config cfg_path).
Proof.
  apply sound_plain. intros st r st' [= <- <-]. split; [discriminate |].
  exists []. split; [now rewrite app_nil_r | constructor].
Qed.

Lemma sound_run_process (o : options) (p : process) : sound o (run_process p).
Proof.
  apply sound_plain. intros st r st'. unfold run_process.
  destruct (communicate (world st) p) as [w rc]. intros [= <- <-].
  split; [discriminate |]. exists [EvRun p rc]. split; [reflexivity |].
  now repeat constructor.
Qed.

Lemma sound_run_query (o : options) (host port sql : pyval) :
  sound o (run_query host port sql).
Proof.
  apply sound_plain. intros st r st'. unfold run_query.
  destruct (fetchall (world st) host port sql) as [w q]. intros [= <- <-].
  split; [discriminate |]. exists [EvQuery host port sql]. split; [reflexivity |].
  now repeat constructor.
Qed.

Lemma sound_bind (o : options) {A B} (c : M A) (k : A -> M B) :
  sound o c -> (forall a, sound o (k a)) -> sound o (bind c k).
Proof.
  intros Hc Hk st r st' Hrun. unfold bind in Hrun.
  destruct (c st) as [r1 st1] eqn:Ec.
  destruct (Hc st r1 st1 Ec) as (evs1 & Ht1 & H1).
  destruct r1 as [a | e | | code].
  - destruct (Hk a st1 r st' Hrun) as (evs2 & Ht2 & H2).
    destruct H1 as [[_ Hq1] | (_ & Hex & _)]; [| discriminate].
    exists (evs1 ++ evs2). split; [now rewrite Ht2, Ht1, app_assoc |].
    destruct H2 as [[Hne Hq2] | (Hstop & -> & evs0 & alias & msg & Hq0 & ->)].
    + left. split; [exact Hne |]. intros Hstop. apply quiet_app; auto.
    + right. split; [exact Hstop |]. split; [reflexivity |].
      exists (evs1 ++ evs0), alias, msg. split; [apply quiet_app; auto |].
      now rewrite app_assoc.
  - injection Hrun as <- <-. exists evs1. split; [exact Ht1 |].
    destruct H1 as [[_ Hq1] | (_ & Hex & _)]; [| discriminate].
    left. split; [discriminate | exact Hq1].
  - injection Hrun as <- <-. exists evs1. split; [exact Ht1 |].
    destruct H1 as [[_ Hq1] | (_ & Hex & _)]; [| discriminate].
    left. split; [discriminate | exact Hq1].
  - injection Hrun as <- <-. exists evs1. split; [exact Ht1 |].
    destruct H1 as [[Hne _] | (Hstop & Hex & Hshape)]; [now destruct (Hne code) |].
    injection Hex as ->.
    right. split; [exact Hstop |]. split; [reflexivity | exact Hshape].
Qed.

Ltac sound_step :=
  first
    [ apply sound_ret | apply sound_raise | apply sound_return_from_main
    | apply sound_lift | apply sound_strftime | apply sound_load_config
    | apply sound_run_process | apply sound_run_query
    | apply sound_emit; reflexivity
    | apply sound_bind; [| intros ?]
    | match goal with
      | |- sound _ (if ?b then _ else _) => destruct b
      | |- sound _ (match ?x with _ => _ end) => destruct x
      | |- sound _ (let (_, _) := ?x in _) => destruct x
      end ].

Ltac sound_auto := unfold logging, print; repeat sound_step.

Lemma sound_join (o : options) (cmd : list pyval) : sound o (join cmd).
Proof. unfold join. sound_auto. Qed.

Lemma sound_popen (o : options) (cmd : list pyval) (stdin : option (list string))
    (out : stream) : sound o (popen cmd stdin out).
Proof. unfold popen. sound_auto. Qed.

Lemma sound_popen_nowait (o : options) (cmd : list pyval) : sound o (popen_nowait cmd).
Proof. unfold popen_nowait. sound_auto. Qed.

Lemma sound_drop_table (o : options) (src_db src_tbl : pyval) (c : conf) :
  sound o (drop_table src_db src_tbl c o).
Proof.
  unfold drop_table. destruct (dry_run o); [| apply sound_popen].
  apply sound_bind; [apply sound_join | intros line]. sound_auto.
Qed.

Lemma sound_swap_create_table (o : options) (src_db src_tbl src_tbl_swapped : pyval)
    (c : conf) : sound o (swap_create_table src_db src_tbl src_tbl_swapped c o).
Proof.
  unfold swap_create_table. apply sound_bind.
  - destruct (dry_run o); [sound_auto | apply sound_popen].
  - intros r. destruct (r =? 0); [| apply sound_ret].
    destruct (dry_run o).
    + apply sound_bind; [apply sound_join | intros dump_line].
      apply sound_bind; [sound_auto | intros _].
      apply sound_bind; [apply sound_join | intros create_line]. sound_auto.
    + apply sound_bind; [apply sound_popen_nowait | intros dump_args].
      apply sound_popen.
Qed.

Lemma sound_swap_drop_runner (o : options) (src_db src_tbl : pyval) (c : conf) :
  sound o (swap_drop_runner src_db src_tbl c o).
Proof.
  unfold swap_drop_runner. destruct (dry_run o); [sound_auto | apply sound_popen].
Qed.

Lemma sound_pt_archive_runner (o : options) (src_db src_tbl : pyval) (c : conf) :
  sound o (pt_archive_runner src_db src_tbl c o).
Proof. unfold pt_archive_runner. sound_auto. Qed.

Lemma sound_get_tables_from_query (o : options) (host port sql : pyval) :
  sound o (get_tables_from_query host port sql).
Proof. unfold get_tables_from_query. sound_auto. Qed.

Lemma sound_dispatch (o : options) (tbl : target) (l : locals) : sound o (dispatch o tbl l).
Proof.
  unfold dispatch.
  destruct (Py.eq (swp_drp (l_conf l)) (PInt 0)).
  { apply sound_bind; [apply sound_pt_archive_runner | intros r; apply sound_ret]. }
  destruct (Py.eq (swp_drp (l_conf l)) (PInt 1)).
  { apply sound_bind; [apply sound_swap_drop_runner | intros r; apply sound_ret]. }
  destruct (Py.eq (swp_drp (l_conf l)) (PInt 2)); [| apply sound_ret].
  apply sound_bind; [apply sound_lift | intros prefix].
  apply sound_bind; [apply sound_lift | intros swapped].
  apply sound_bind; [apply sound_swap_create_table | intros r1].
  destruct (r1 =? 0); [| apply sound_ret].
  apply sound_bind; [apply sound_pt_archive_runner | intros r2].
  destruct (r2 =? 0); [| apply sound_ret].
  apply sound_bind; [apply sound_drop_table | intros r3; apply sound_ret].
Qed.

(** What lines 174-182 do with a target whose [ret] is not 0. *)
Lemma after_target_failed (o : options) (f : string) (l : locals) (st : state) (r : Z) :
  l_ret l = Some r -> r <> 0 ->
  after_target o f l st =
  (if stop_on_error o then Exit 1
   else Val (Locals (l_conf l) (error_on_alias l ++ [prg_alias (l_conf l)])
                    (Some r) (statuses l ++ [r])),
   after_events st [EvLog (LogPurgeFailedCheck (prg_alias (l_conf l)) ("Check " +:+ f));
                    EvLog LogPurgeFailed]).
Proof.
  intros Hret Hr. unfold after_target. rewrite Hret.
  apply Z.eqb_neq in Hr. rewrite Hr. cbn [negb].
  unfold bind, logging, emit, sys_exit, ret, after_events.
  cbn [world trace l_conf error_on_alias l_ret statuses].
  rewrite <- app_assoc. now destruct (stop_on_error o).
Qed.

Lemma after_target_passed (o : options) (f : string) (l : locals) (st : state) :
  l_ret l = Some 0 ->
  after_target o f l st =
  (Val (Locals (l_conf l) (error_on_alias l) (Some 0) (statuses l ++ [0])), st).
Proof. intros Hret. unfold after_target. rewrite Hret. reflexivity. Qed.

Lemma sound_after_target (o : options) (f : string) (l : locals) :
  sound o (after_target o f l).
Proof.
  destruct (l_ret l) as [r |] eqn:Hret.
  2:{ unfold after_target. rewrite Hret. apply sound_raise. }
  destruct (Z.eq_dec r 0) as [-> | Hr].
  { intros st res st'. rewrite (after_target_passed o f l st Hret). intros [= <- <-].
    exists []. split; [now rewrite app_nil_r |]. left.
    split; [discriminate | constructor]. }
  intros st res st'. rewrite (after_target_failed o f l st r Hret Hr).
  intros [= <- <-].
  exists [EvLog (LogPurgeFailedCheck (prg_alias (l_conf l)) ("Check " +:+ f));
          EvLog LogPurgeFailed].
  split; [reflexivity |].
  destruct (stop_on_error o) eqn:Hstop.
  - right. split; [reflexivity |]. split; [reflexivity |].
    exists [], (prg_alias (l_conf l)), ("Check " +:+ f). split; [constructor | reflexivity].
  - left. split; [discriminate | discriminate].
Qed.

Lemma sound_target_body (o : options) (f : string) (tbl : target) (l : locals) :
  sound o (target_body o f tbl l).
Proof.
  unfold target_body. apply sound_bind; [apply sound_dispatch |].
  intros l1. apply sound_after_target.
Qed.

Lemma sound_targets_loop (o : options) (f : string) (tables : list target) (l : locals) :
  sound o (targets_loop o f tables l).
Proof.
  revert l. induction tables as [| tbl rest IH]; intros l; cbn [targets_loop].
  - apply sound_ret.
  - apply sound_bind; [apply sound_target_body | exact IH].
Qed.

Lemma sound_run_job (o : options) (c : conf) : sound o (run_job o c).
Proof.
  unfold run_job.
  apply sound_bind; [apply sound_strftime | intros today].
  apply sound_bind; [apply sound_emit; reflexivity | intros _].
  apply sound_bind.
  { unfold enumerate. destruct (truthy (src_query c));
      [apply sound_get_tables_from_query | apply sound_ret]. }
  intros tables. apply sound_bind; [apply sound_targets_loop | intros l].
  unfold report. sound_auto.
Qed.

Lemma sound_process_purge (o : options) (purge : gmap string pyval) :
  sound o (process_purge o purge).
Proof.
  unfold process_purge.
  apply sound_bind; [apply sound_strftime | intros today].
  apply sound_bind; [apply sound_emit; reflexivity | intros _].
  destruct (negb _); [sound_auto |].
  destruct (_ && _); [sound_auto | apply sound_run_job].
Qed.

Lemma sound_purges_loop (o : options) (purges : list (gmap string pyval)) :
  sound o (purges_loop o purges).
Proof.
  induction purges as [| purge rest IH]; cbn [purges_loop].
  - apply sound_ret.
  - apply sound_bind; [apply sound_process_purge | intros _; exact IH].
Qed.

Lemma sound_main_body (o : options) : sound o (main_body o).
Proof.
  unfold main_body.
  apply sound_bind; [apply sound_load_config | intros loaded].
  destruct loaded as [[|] | data]; [sound_auto | apply sound_raise |].
  apply sound_bind; [apply sound_lift | intros default_purge].
  apply sound_bind; [apply sound_lift | intros purge_list].
  apply sound_bind; [| intros purges; apply sound_purges_loop].
  destruct (opt_alias o); [apply sound_lift | apply sound_ret].
Qed.

Lemma sound_main (o : options) : sound o (main o).
Proof.
  intros st r st' Hrun. unfold main in Hrun.
  destruct (main_body o st) as [r1 st1] eqn:Ebody.
  destruct (sound_main_body o st r1 st1 Ebody) as (evs & Htrace & Hevs).
  destruct r1 as [[] | e | | code]; cbn [outer_handler] in Hrun.
  - injection Hrun as <- <-. exists evs. split; [exact Htrace | exact Hevs].
  - unfold logging, emit in Hrun. injection Hrun as <- <-.
    exists (evs ++ [EvLog LogUnhandled]). cbn [trace].
    split; [now rewrite Htrace, app_assoc |].
    destruct Hevs as [[_ Hq] | (_ & Hex & _)]; [| discriminate].
    left. split; [discriminate |]. intros Hstop.
    apply quiet_app; [auto | now repeat constructor].
  - injection Hrun as <- <-. exists evs. split; [exact Htrace |].
    destruct Hevs as [[_ Hq] | (_ & Hex & _)]; [| discriminate].
    left. split; [discriminate | exact Hq].
  - injection Hrun as <- <-. exists evs. split; [exact Htrace | exact Hevs].
Qed.

(** In a trace that ends with a failure record and the "Purge failed"
    line after quiet events, a failure record is followed by that line
    and nothing else. *)
Lemma failure_record_is_last (evs0 pre post : list event)
    (alias alias' : pyval) (msg msg' : string) :
  quiet evs0 ->
  pre ++ EvLog (LogPurgeFailedCheck alias msg) :: post =
    evs0 ++ [EvLog (LogPurgeFailedCheck alias' msg'); EvLog LogPurgeFailed] ->
  post = [EvLog LogPurgeFailed].
Proof.
  intros Hq. revert pre. induction Hq as [| e evs0 He _ IH]; intros pre Heq.
  - destruct pre as [| x [| y pre]]; cbn in Heq.
    + now injection Heq as _ _ ->.
    + injection Heq as _ Heq. discriminate.
    + injection Heq as _ _ Heq. now destruct pre.
  - destruct pre as [| x pre]; cbn in Heq.
    + injection Heq as <- _. discriminate.
    + injection Heq as _ Heq. now apply IH with (pre := pre).
Qed.

(** C5: under stop-on-error, a target whose result is not 0 makes the loop
    body log the failure and exit the process with status 1: whatever
    targets follow in the job are not touched.  And in any run of [main]
    under stop-on-error, once a target's failure is on record, the only
    thing that follows is the "Purge failed" line: no step of a later
    target or of a later job runs, and the process has exited with
    status 1. *)
Theorem C5_stop_on_error_ends_the_run (o : options) :
  stop_on_error o = true ->
  (forall f pre tbl rest l0 st0 l st l1 st1 r,
     targets_loop o f pre l0 st0 = (Val l, st) ->
     dispatch o tbl l st = (Val l1, st1) -> l_ret l1 = Some r -> r <> 0 ->
     targets_loop o f (pre ++ tbl :: rest) l0 st0 =
       (Exit 1,
        after_events st1
          [EvLog (LogPurgeFailedCheck (prg_alias (l_conf l1)) ("Check " +:+ f));
           EvLog LogPurgeFailed])) /\
  (forall st pre alias msg post,
     trace (snd (main o st)) =
       trace st ++ pre ++ EvLog (LogPurgeFailedCheck alias msg) :: post ->
     post = [EvLog LogPurgeFailed] /\
     fst (main o st) = Exit 1 /\
     exit_status (fst (main o st)) = 1).
Proof.
  intros Hstop. split.
  - intros f pre tbl rest l0 st0 l st l1 st1 r Hpre Hdisp Hret Hr.
    rewrite targets_loop_app, Hpre. cbn [skip_rest targets_loop].
    apply bind_Exit. unfold target_body.
    rewrite (bind_Val _ _ _ _ _ Hdisp).
    rewrite (after_target_failed o f l1 st1 r Hret Hr). now rewrite Hstop.
  - intros st pre alias msg post Htrace.
    destruct (main o st) as [r st'] eqn:Emain. cbn [fst snd] in *.
    destruct (sound_main o st r st' Emain) as (evs & Hevs & Hcase).
    rewrite Hevs in Htrace. apply app_inv_head in Htrace. subst evs.
    destruct Hcase as [[_ Hq] | (_ & -> & evs0 & alias' & msg' & Hq0 & Heq)].
    + specialize (Hq Hstop). unfold quiet in Hq.
      apply Forall_app in Hq as [_ Hq]. inversion Hq as [| ? ? Hhead _]; subst.
      discriminate.
    + split; [| split; reflexivity].
      eapply failure_record_is_last; eauto.
Qed.

(** ** Continuing after a failure *)


(** A loop body that falls through recorded the target's status, and put
    the alias on the failure list exactly when the status is not 0. *)
Lemma after_target_Val (o : options) (f : string) (l l2 : locals) (st st2 : state) :
  after_target o f l st = (Val l2, st2) ->
  exists r,
    l_ret l = Some r /\
    l_conf l2 = l_conf l /\
    statuses l2 = statuses l ++ [r] /\
    error_on_alias l2 =
      error_on_alias l ++ (if r =? 0 then [] else [prg_alias (l_conf l)]).
Proof.
  intros Hafter. destruct (l_ret l) as [r |] eqn:Hret.
  2:{ unfold after_target in Hafter. now rewrite Hret in Hafter. }
  exists r. split; [reflexivity |].
  destruct (Z.eq_dec r 0) as [-> | Hr].
  - rewrite (after_target_passed o f l st Hret) in Hafter.
    injection Hafter as <- _. cbn. now rewrite app_nil_r.
  - rewrite (after_target_failed o f l st r Hret Hr) in Hafter.
    destruct (stop_on_error o); [discriminate |].
    injection Hafter as <- _. cbn.
    apply Z.eqb_neq in Hr. now rewrite Hr.
Qed.







End Properties.

(** * The properties on scripted runs *)


(** A job list whose second job has selector 3: the third job is never
    looked at. *)
Lemma C2_invalid_selector_abandons_run_witness :
  let bad : gmap string pyval := <["SWAP_DROP" := PInt 3]> archive_job in
  let st := start (Script (doc_of [archive_job; bad; swap_job]) "20240101" [] two_rows) in
  is_in (get_or bad "SWAP_DROP" (PInt 0)) [PInt 0; PInt 1; PInt 2] = false /\
  @purges_loop scripted no_options ([archive_job] ++ bad :: [swap_job]) st =
    @purges_loop scripted no_options ([archive_job] ++ bad :: []) st /\
  fst (@purges_loop scripted no_options ([archive_job] ++ bad :: [swap_job]) st) = Return.
Proof.
  intros bad st. split; [reflexivity |].
  destruct (@C2_invalid_selector_abandons_run scripted no_options bad [archive_job]
              [swap_job] st eq_refl) as (_ & Hloop & _).
  destruct (@C2_invalid_selector_abandons_run scripted no_options bad [archive_job]
              [] st eq_refl) as (_ & Hloop' & _).
  split; [now rewrite Hloop, Hloop' |].
  rewrite Hloop. vm_compute. reflexivity.
Defined.

(** An archive-only job with an empty WHERE, first in the list. *)
Lemma C3_archive_only_needs_where_witness :
  let bare : gmap string pyval := <["WHERE" := PStr ""]> archive_job in
  let st := start (Script (doc_of [bare; swap_job]) "20240101" [] two_rows) in
  Py.eq (get_or bare "SWAP_DROP" (PInt 0)) (PInt 0) = true /\
  truthy (get bare "WHERE") = false /\
  @purges_loop scripted no_options ([] ++ bare :: [swap_job]) st =
    (Return,
     @State scripted (Script (doc_of [bare; swap_job]) "20240101" [] two_rows)
       [EvLog LogPurgeStarted; EvLog (LogNoWhere (PStr "orders"))]).
Proof.
  intros bare st. split; [reflexivity |]. split; [reflexivity |].
  destruct (@C3_archive_only_needs_where scripted no_options bare [] [swap_job] st
              eq_refl eq_refl) as (_ & Hloop & _).
  rewrite Hloop. vm_compute. reflexivity.
Defined.

(** Stop-on-error with two targets: the swap of the first target fails with
    status 7; the trace ends with the failure record and the "Purge failed"
    line, no process of the second target runs, and the exit status is 1. *)
Lemma C5_stop_on_error_ends_the_run_witness :
  let st := start (Script (doc_of [swap_job]) "20240101" [7] two_rows) in
  stop_on_error stop_options = true /\
  @trace scripted (snd (@main scripted stop_options st)) =
    [EvLog LogPurgeStarted;
     EvOpenLog "/var/log/percona/purge_tables-logs-20240101.log";
     EvQuery (PStr "localhost") (PInt 3306) (PStr "SELECT 1");
     EvRun (Process ["mysql"; "db1"; "-hlocalhost"; "-P3306";
                     "-eCREATE TABLE db1.t1_tmp LIKE db1.t1;RENAME TABLE db1.t1 TO db1.t1_old, db1.t1_tmp TO db1.t1;"]
              None ToLog) 7;
     EvLog (LogPurgeFailedCheck (PStr "logs")
              "Check /var/log/percona/purge_tables-logs-20240101.log");
     EvLog LogPurgeFailed] /\
  fst (@main scripted stop_options st) = Exit 1 /\
  exit_status (fst (@main scripted stop_options st)) = 1.
Proof.
  intros st. split; [reflexivity |]. split; [vm_compute; reflexivity |].
  destruct (@C5_stop_on_error_ends_the_run scripted stop_options eq_refl) as (_ & Hrun).
  destruct (Hrun st
              [EvLog LogPurgeStarted;
               EvOpenLog "/var/log/percona/purge_tables-logs-20240101.log";
               EvQuery (PStr "localhost") (PInt 3306) (PStr "SELECT 1");
               EvRun (Process ["mysql"; "db1"; "-hlocalhost"; "-P3306";
                               "-eCREATE TABLE db1.t1_tmp LIKE db1.t1;RENAME TABLE db1.t1 TO db1.t1_old, db1.t1_tmp TO db1.t1;"]
                        None ToLog) 7]
              (PStr "logs") "Check /var/log/percona/purge_tables-logs-20240101.log"
              [EvLog LogPurgeFailed])
    as (_ & Hexit & Hstatus); [vm_compute; reflexivity |].
  split; [exact Hexit | exact Hstatus].
Defined.




(** A job list that cannot be parsed, and one without its job-list section. *)
Lemma C9_unusable_job_list_aborts_witness :
  let w := Script (LoadFailed true) "20240101" [] QFailed in
  let w' := Script (Loaded (Document (Some ∅) None)) "20240101" [] QFailed in
  load_failed (sc_load w) = true /\
  load_failed (sc_load w') = true /\
  @main scripted no_options (start w) =
    (Val tt, @State scripted w [EvLog (LogCouldNotRead "/etc/rdba/purge_tables.yml")]) /\
  @main scripted no_options (start w') =
    (Val tt, @State scripted w' [EvLog LogUnhandled]).
Proof.
  intros w w'. split; [reflexivity |]. split; [reflexivity |]. split.
  - apply (@C9_unusable_job_list_aborts scripted no_options (start w)). reflexivity.
  - apply (@C9_unusable_job_list_aborts scripted no_options (start w')). reflexivity.
Defined.


(** The specification's first end-to-end scenario: one archive-only job
    with WHERE [id<100] and LIMIT 500 runs exactly one process, the
    archiver, with [--where=id<100] and [--limit=500], and no DDL. *)
Example archive_only_scenario :
  filter (fun e => is_step e)
    (@trace scripted
       (snd (@main scripted no_options
               (start (Script (doc_of [archive_job]) "20240101" [] QFailed))))) =
  [EvRun (Process ["/usr/bin/pt-archiver";
                   "--source=h=localhost,P=3306,D=shop,t=orders,b=0";
                   "--where=id<100"; "--limit=500"; "--progress=100000";
                   "--why-quit"; "--header"; "--sleep=1"; "--statistics";
                   "--skip-foreign-key-checks"; "--commit-each";
                   "--no-check-charset"; "--bulk-insert";
                   "--dest=h=localhost,P=3306,D=shop,t=orders,b=0,L=yes"]
            None ToLog) 0].
Proof. vm_compute. reflexivity. Qed.

(** A suffix given as a YAML integer is not a string: the swap-archive-drop
    job raises at line 163 and the run ends in the outer handler with no
    process started. *)
Example integer_suffix_scenario :
  let job : gmap string pyval := <["SWP_TABLE_SUFFIX" := PInt 20240101]> swap_job in
  @trace scripted
    (snd (@main scripted no_options
            (start (Script (doc_of [job]) "20240101" [] two_rows)))) =
  [EvLog LogPurgeStarted;
   EvOpenLog "/var/log/percona/purge_tables-logs-20240101.log";
   EvQuery (PStr "localhost") (PInt 3306) (PStr "SELECT 1");
   EvLog LogUnhandled].
Proof. vm_compute. reflexivity. Qed.

(** * Further properties of the script *)

(** ** The elapsed-time text *)

Example hhmmss_3661 : format_seconds_to_hhmmss 3661 = "01:01:01".
Proof. reflexivity. Qed.

Example hhmmss_59 : format_seconds_to_hhmmss 59 = "00:00:59".
Proof. reflexivity. Qed.

Lemma append_String (a : ascii) (s t : string) : String a s +:+ t = String a (s +:+ t).
Proof. reflexivity. Qed.


Lemma string_app_assoc (s t u : string) : (s +:+ t) +:+ u = s +:+ (t +:+ u).
Proof.
  induction s as [| a s IH]; [reflexivity |].
  rewrite !append_String. now rewrite IH.
Qed.





(** ** Splitting and joining arguments *)

Lemma join_space_cons (s : string) (l : list string) :
  l <> [] -> join_space (s :: l) = s +:+ " " +:+ join_space l.
Proof. destruct l; [congruence | reflexivity]. Qed.

(** [' '.join(s.split(' '))] is [s]. *)
Lemma join_split_space (s : string) : join_space (split_space s) = s.
Proof.
  induction s as [| c s IH]; [reflexivity |].
  cbn [split_space]. destruct (Ascii.eqb c " ") eqn:Ec.
  - apply Ascii.eqb_eq in Ec. subst c.
    rewrite join_space_cons by apply split_space_nonempty. now rewrite IH.
  - pose proof (split_space_nonempty s) as Hne.
    destruct (split_space s) as [| w ws]; [congruence |].
    destruct ws as [| w' ws].
    + cbn [join_space] in *. now rewrite IH.
    + rewrite join_space_cons in * by discriminate.
      rewrite append_String. now rewrite IH.
Qed.

Lemma join_space_app (l1 l2 : list string) :
  l1 <> [] -> l2 <> [] ->
  join_space (l1 ++ l2) = join_space l1 +:+ " " +:+ join_space l2.
Proof.
  intros H1 H2. induction l1 as [| s l1 IH]; [congruence |].
  destruct l1 as [| s' l1].
  - cbn [app]. now rewrite join_space_cons.
  - change ((s :: s' :: l1) ++ l2) with (s :: (s' :: l1) ++ l2).
    rewrite !join_space_cons by (try discriminate; destruct l1; discriminate).
    rewrite IH by discriminate. now rewrite !string_app_assoc.
Qed.

(** X8: the archiver command line that is logged (line 322) is the builder's own
    arguments joined by spaces, followed, when EXTRA_ARGS is a non-empty
    string, by a space and that string exactly as it was written: splitting
    it into arguments and joining the command loses nothing of it. *)
Theorem logged_command_keeps_extra_args
    (src_db src_tbl : pyval) (c : conf) (o : options) (extra : string) :
  prg_extra_args c = PStr extra -> extra <> "" ->
  exists cmd : list string,
    pt_archiver_cmd src_db src_tbl c o = inr cmd /\
    join_space cmd =
      join_space (archiver_base src_db src_tbl c ++ archiver_mode c ++ archiver_dry_run o)
      +:+ " " +:+ extra.
Proof.
  intros Hextra Hne.
  assert (Htruthy : truthy (PStr extra) = true).
  { cbn. destruct (String.eqb_spec extra ""); [congruence | reflexivity]. }
  unfold pt_archiver_cmd, archiver_extra. rewrite Hextra, Htruthy.
  eexists. split; [reflexivity |].
  rewrite !app_assoc. rewrite join_space_app.
  - now rewrite join_split_space.
  - discriminate.
  - apply split_space_nonempty.
Qed.

Lemma logged_command_keeps_extra_args_witness :
  let c := resolve "20240101" (<["EXTRA_ARGS" := PStr "--max-lag 5  --quiet"]> archive_job) in
  prg_extra_args c = PStr "--max-lag 5  --quiet" /\
  exists cmd : list string,
    pt_archiver_cmd (PStr "shop") (PStr "orders") c no_options = inr cmd /\
    join_space cmd =
      join_space (archiver_base (PStr "shop") (PStr "orders") c ++ archiver_mode c ++
                  archiver_dry_run no_options)
      +:+ " " +:+ "--max-lag 5  --quiet".
Proof.
  intros c. split; [reflexivity |].
  apply (logged_command_keeps_extra_args (PStr "shop") (PStr "orders") c no_options
           "--max-lag 5  --quiet"); [reflexivity | discriminate].
Defined.

(** ** The archiver builder's failure and its dry-run directive *)

(** X7: the builder fails exactly when EXTRA_ARGS is a true value that is not a
    string (a YAML number or boolean), and then with [AttributeError]; the
    archiver step then ends before it logs or starts anything. *)
Theorem archiver_builder_fails_on_non_string_extra
    (src_db src_tbl : pyval) (c : conf) (o : options) :
  (forall e, pt_archiver_cmd src_db src_tbl c o = inl e ->
     e = AttributeError /\ truthy (prg_extra_args c) = true /\
     forall s, prg_extra_args c <> PStr s) /\
  (truthy (prg_extra_args c) = true -> (forall s, prg_extra_args c <> PStr s) ->
     pt_archiver_cmd src_db src_tbl c o = inl AttributeError) /\
  (truthy (prg_extra_args c) = false ->
     pt_archiver_cmd src_db src_tbl c o =
       inr (archiver_base src_db src_tbl c ++ archiver_mode c ++ archiver_dry_run o ++ [])).
Proof.
  unfold pt_archiver_cmd, archiver_extra. repeat split.
  - destruct (truthy (prg_extra_args c)); [| discriminate].
    destruct (prg_extra_args c); congruence.
  - destruct (truthy (prg_extra_args c)); [reflexivity | discriminate].
  - destruct (truthy (prg_extra_args c)); [| discriminate].
    destruct (prg_extra_args c); congruence.
  - intros Ht Hns. rewrite Ht.
    destruct (prg_extra_args c) as [| b | z | s]; try reflexivity. now destruct (Hns s).
  - intros ->. reflexivity.
Qed.

Lemma archiver_builder_fails_on_non_string_extra_witness :
  let c := resolve "20240101" (<["EXTRA_ARGS" := PInt 5]> archive_job) in
  truthy (prg_extra_args c) = true /\
  pt_archiver_cmd (PStr "shop") (PStr "orders") c no_options = inl AttributeError.
Proof.
  intros c. split; [reflexivity |].
  destruct (archiver_builder_fails_on_non_string_extra (PStr "shop") (PStr "orders") c
              no_options) as (_ & Hfail & _).
  apply Hfail; [reflexivity | discriminate].
Defined.

Lemma not_dry_run_in_source_args (src_db src_tbl : pyval) (c : conf) :
  source_args src_db src_tbl c <> "--dry-run".
Proof. unfold source_args. destruct (truthy (prg_use_index c)); discriminate. Qed.

(** X6: among the arguments the builder itself chooses, [--dry-run] is there
    exactly when the simulation flag is set: a real run is never told to
    simulate, and a simulated one always is. *)
Theorem dry_run_directive_iff_flag (src_db src_tbl : pyval) (c : conf) (o : options) :
  In "--dry-run"
     (archiver_base src_db src_tbl c ++ archiver_mode c ++ archiver_dry_run o) <->
  dry_run o = true.
Proof.
  rewrite !in_app_iff. unfold archiver_dry_run. split.
  - intros [Hbase | [Hmode | Hdry]].
    + unfold archiver_base in Hbase. cbn [In] in Hbase.
      pose proof (not_dry_run_in_source_args src_db src_tbl c).
      intuition (try discriminate; try congruence).
    + unfold archiver_mode, dest_arg in Hmode.
      destruct (truthy (prg_purge c)); [cbn in Hmode; intuition discriminate |].
      destruct (truthy (dst_file c)); cbn in Hmode; intuition discriminate.
    + destruct (dry_run o); [reflexivity | contradiction].
  - intros ->. right; right. now left.
Qed.

(** ** Destination defaulting, beyond absent keys *)

(** X16: the defaulting of lines 124-126 tests truth, not presence: a destination
    coordinate given as null, empty, 0 or false is replaced by the source's
    as well, a true one is kept whatever the source is; so after resolution
    a destination coordinate is false only when the source's is; and
    defaulting a second time changes nothing. *)
Theorem destination_false_only_if_source_false
    (today : string) (purge : gmap string pyval) (k : coordinate) :
  let c := resolve today purge in
  dst_of k c =
    (if truthy (get purge (dest_key k)) then get purge (dest_key k) else src_of k c) /\
  (truthy (dst_of k c) = false -> truthy (src_of k c) = false) /\
  default_dest c = c.
Proof.
  intros c. split; [| split].
  - destruct k; reflexivity.
  - destruct k; cbn; unfold or_src;
      match goal with |- context [truthy (get purge ?key)] =>
        destruct (truthy (get purge key)) eqn:E
      end; intros Hfalse; congruence.
  - apply default_dest_idempotent.
Qed.

(** ** Restricting the run to one alias *)

(** Line 97 reads [b['ALIAS']] of every job, selected or not: one job
    without the key fails the whole selection with [KeyError]; otherwise
    the jobs whose alias equals the option are kept, in their order. *)
Lemma select_alias_spec (alias : string) (purges : list (gmap string pyval)) :
  select_alias alias purges =
  if forallb has_alias purges
  then inr (List.filter (alias_is alias) purges)
  else inl (KeyError "ALIAS").
Proof.
  induction purges as [| b rest IH]; [reflexivity |].
  cbn [select_alias forallb List.filter]. rewrite IH.
  assert (Hb : has_alias b = match b !! "ALIAS" with Some _ => true | None => false end)
    by reflexivity.
  assert (Ha : alias_is alias b = Py.eq (PStr alias) (default PNone (b !! "ALIAS")))
    by reflexivity.
  rewrite Hb, Ha. destruct (b !! "ALIAS") as [a |]; [| reflexivity].
  cbn [andb]. change (default PNone (Some a)) with a.
  destruct (forallb has_alias rest); [| reflexivity].
  destruct (Py.eq (PStr alias) a); reflexivity.
Qed.

(** ** Rows of the lookup *)

Lemma collect_rows_spec (res : list (list pyval)) (tables : list target) :
  collect_rows res tables =
  (tables ++ map row_target (rows_before_malformed res), negb (forallb well_formed res)).
Proof.
  revert tables. induction res as [| row res IH]; intros tables.
  - cbn. now rewrite app_nil_r.
  - cbn [collect_rows rows_before_malformed forallb].
    destruct row as [| c0 [| c1 row]]; cbn [well_formed length Nat.leb andb negb map];
      try now rewrite app_nil_r.
    rewrite IH. now rewrite <- app_assoc.
Qed.

Lemma rows_before_malformed_length (res : list (list pyval)) :
  (length (rows_before_malformed res) <= length res)%nat.
Proof.
  induction res as [| row res IH]; cbn [rows_before_malformed length]; [lia |].
  destruct (well_formed row); cbn [length]; lia.
Qed.

(** ** What a computation adds to the trace *)

Section MoreProperties.

Context `{Outside}.

Lemma adds_weaken (Q Q' : list event -> Prop) {A} (c : M A) :
  (forall evs, Q evs -> Q' evs) -> adds Q c -> adds Q' c.
Proof.
  intros HQ Hc st r st' Hrun. destruct (Hc st r st' Hrun) as (evs & Ht & Hq).
  exists evs. auto.
Qed.

Lemma adds_nothing (Q : list event -> Prop) {A} (c : M A) :
  Q [] -> (forall st, snd (c st) = st) -> adds Q c.
Proof.
  intros HQ Hc st r st' Hrun. exists []. split; [| exact HQ].
  specialize (Hc st). rewrite Hrun in Hc. cbn in Hc. subst st'. now rewrite app_nil_r.
Qed.

Lemma adds_emit (Q : list event -> Prop) (e : event) : Q [e] -> adds Q (emit e).
Proof. intros HQ st r st' [= <- <-]. exists [e]. now split. Qed.

Lemma adds_run_process (Q : list event -> Prop) (p : process) :
  (forall rc, Q [EvRun p rc]) -> adds Q (run_process p).
Proof.
  intros HQ st r st'. unfold run_process.
  destruct (communicate (world st) p) as [w rc]. intros [= <- <-].
  exists [EvRun p rc]. split; [reflexivity | apply HQ].
Qed.

Lemma adds_run_query (Q : list event -> Prop) (host port sql : pyval) :
  Q [EvQuery host port sql] -> adds Q (run_query host port sql).
Proof.
  intros HQ st r st'. unfold run_query.
  destruct (fetchall (world st) host port sql) as [w q]. intros [= <- <-].
  exists [EvQuery host port sql]. now split.
Qed.

Lemma adds_bind (Q1 Q2 Q : list event -> Prop) {A B} (c : M A) (k : A -> M B) :
  (forall evs, Q1 evs -> Q evs) ->
  (forall evs1 evs2, Q1 evs1 -> Q2 evs2 -> Q (evs1 ++ evs2)) ->
  adds Q1 c -> (forall a, adds Q2 (k a)) -> adds Q (bind c k).
Proof.
  intros Hleft Hboth Hc Hk st r st' Hrun. unfold bind in Hrun.
  destruct (c st) as [r1 st1] eqn:Ec.
  destruct (Hc st r1 st1 Ec) as (evs1 & Ht1 & Hq1).
  destruct r1 as [a | e | | code]; try (injection Hrun as <- <-; exists evs1; auto).
  destruct (Hk a st1 r st' Hrun) as (evs2 & Ht2 & Hq2).
  exists (evs1 ++ evs2). split; [now rewrite Ht2, Ht1, app_assoc | auto].
Qed.

(** *** Events with a property *)

Lemma emits_bind (P : event -> Prop) {A B} (c : M A) (k : A -> M B) :
  emits P c -> (forall a, emits P (k a)) -> emits P (bind c k).
Proof.
  apply adds_bind; [auto |]. intros evs1 evs2 H1 H2. apply Forall_app. now split.
Qed.

Lemma emits_nothing (P : event -> Prop) {A} (c : M A) :
  (forall st, snd (c st) = st) -> emits P c.
Proof. apply adds_nothing. constructor. Qed.

Lemma emits_emit (P : event -> Prop) (e : event) : P e -> emits P (emit e).
Proof. intros He. apply adds_emit. now repeat constructor. Qed.

Lemma emits_lift (P : event -> Prop) {A} (x : exn + A) : emits P (lift x).
Proof. apply emits_nothing. now destruct x. Qed.

Lemma emits_run_process (P : event -> Prop) (p : process) :
  (forall rc, P (EvRun p rc)) -> emits P (run_process p).
Proof. intros Hp. apply adds_run_process. intros rc. now repeat constructor. Qed.

Lemma emits_join (P : event -> Prop) (cmd : list pyval) : emits P (join cmd).
Proof. apply emits_nothing. intros st. unfold join. now destruct (strings_of cmd). Qed.

Ltac emits_step :=
  first
    [ apply emits_join | apply emits_lift
    | apply emits_nothing; reflexivity
    | apply emits_emit; exact I
    | apply emits_bind; [| intros ?]
    | match goal with
      | |- emits _ (if ?b then _ else _) => destruct b
      | |- emits _ (match ?x with _ => _ end) => destruct x
      | |- emits _ (let (_, _) := ?x in _) => destruct x
      end ].

Ltac emits_auto := unfold logging, print; repeat emits_step.

(** *** A simulated run *)

Lemma simulated_drop_table (o : options) (src_db src_tbl : pyval) (c : conf) :
  dry_run o = true -> emits simulated (drop_table src_db src_tbl c o).
Proof. intros Hdry. unfold drop_table. rewrite Hdry. emits_auto. Qed.

Lemma simulated_swap_create_table (o : options) (src_db src_tbl swapped : pyval) (c : conf) :
  dry_run o = true -> emits simulated (swap_create_table src_db src_tbl swapped c o).
Proof.
  intros Hdry. unfold swap_create_table. rewrite Hdry.
  apply emits_bind; [emits_auto | intros r].
  destruct (r =? 0); emits_auto.
Qed.

Lemma simulated_swap_drop_runner (o : options) (src_db src_tbl : pyval) (c : conf) :
  dry_run o = true -> emits simulated (swap_drop_runner src_db src_tbl c o).
Proof. intros Hdry. unfold swap_drop_runner. rewrite Hdry. emits_auto. Qed.

Lemma adds_bind_ret (Q : list event -> Prop) {A B} (a : A) (k : A -> M B) :
  adds Q (k a) -> adds Q (bind (ret a) k).
Proof. intros Hk. exact Hk. Qed.

Lemma simulated_pt_archive_runner (o : options) (src_db src_tbl : pyval) (c : conf) :
  dry_run o = true -> emits simulated (pt_archive_runner src_db src_tbl c o).
Proof.
  intros Hdry. unfold pt_archive_runner. rewrite Hdry.
  destruct (pt_archiver_cmd src_db src_tbl c o) as [e | cmd] eqn:Ecmd.
  { apply emits_nothing. reflexivity. }
  assert (Hcmd : hd_error cmd = Some PT_ARCHIVER_BIN /\ In "--dry-run" cmd).
  { unfold pt_archiver_cmd in Ecmd. destruct (archiver_extra c) as [| extra]; [discriminate |].
    assert (Hc : cmd = archiver_base src_db src_tbl c ++ archiver_mode c ++
                       archiver_dry_run o ++ extra) by congruence.
    subst cmd. split; [reflexivity |].
    unfold archiver_dry_run. rewrite Hdry, !in_app_iff. right; right; left. now left. }
  cbn [lift]. apply adds_bind_ret.
  apply emits_bind; [emits_auto | intros _].
  apply emits_bind; [| intros r; emits_auto].
  apply emits_run_process. intros rc. cbn. tauto.
Qed.

Lemma simulated_dispatch (o : options) (tbl : target) (l : locals) :
  dry_run o = true -> emits simulated (dispatch o tbl l).
Proof.
  intros Hdry. unfold dispatch.
  destruct (Py.eq (swp_drp (l_conf l)) (PInt 0)).
  { apply emits_bind; [now apply simulated_pt_archive_runner | intros r; emits_auto]. }
  destruct (Py.eq (swp_drp (l_conf l)) (PInt 1)).
  { apply emits_bind; [now apply simulated_swap_drop_runner | intros r; emits_auto]. }
  destruct (Py.eq (swp_drp (l_conf l)) (PInt 2)); [| emits_auto].
  apply emits_bind; [apply emits_lift | intros prefix].
  apply emits_bind; [apply emits_lift | intros swapped].
  apply emits_bind; [now apply simulated_swap_create_table | intros r1].
  destruct (r1 =? 0); [| emits_auto].
  apply emits_bind; [now apply simulated_pt_archive_runner | intros r2].
  destruct (r2 =? 0); [| emits_auto].
  apply emits_bind; [now apply simulated_drop_table | intros r3; emits_auto].
Qed.

Lemma simulated_after_target (o : options) (f : string) (l : locals) :
  emits simulated (after_target o f l).
Proof. unfold after_target, sys_exit. emits_auto. Qed.

Lemma simulated_targets_loop (o : options) (f : string) (tables : list target) (l : locals) :
  dry_run o = true -> emits simulated (targets_loop o f tables l).
Proof.
  intros Hdry. revert l. induction tables as [| tbl rest IH]; intros l; cbn [targets_loop].
  - emits_auto.
  - apply emits_bind; [| exact IH]. unfold target_body.
    apply emits_bind; [now apply simulated_dispatch | intros l1].
    apply simulated_after_target.
Qed.

Lemma simulated_get_tables_from_query (host port sql : pyval) :
  emits simulated (get_tables_from_query host port sql).
Proof.
  unfold get_tables_from_query.
  apply emits_bind; [| intros q; emits_auto].
  apply adds_run_query. now repeat constructor.
Qed.

Lemma simulated_process_purge (o : options) (purge : gmap string pyval) :
  dry_run o = true -> emits simulated (process_purge o purge).
Proof.
  intros Hdry. unfold process_purge, return_from_main, strftime.
  apply emits_bind; [emits_auto | intros today].
  apply emits_bind; [emits_auto | intros _].
  destruct (negb _); [emits_auto |].
  destruct (_ && _); [emits_auto |].
  unfold run_job, strftime.
  apply emits_bind; [emits_auto | intros today'].
  apply emits_bind; [emits_auto | intros _].
  apply emits_bind.
  { unfold enumerate. destruct (truthy _);
      [apply simulated_get_tables_from_query | emits_auto]. }
  intros tables. apply emits_bind; [now apply simulated_targets_loop | intros l].
  unfold report. emits_auto.
Qed.

Lemma simulated_purges_loop (o : options) (purges : list (gmap string pyval)) :
  dry_run o = true -> emits simulated (purges_loop o purges).
Proof.
  intros Hdry. induction purges as [| purge rest IH]; cbn [purges_loop].
  - emits_auto.
  - apply emits_bind; [now apply simulated_process_purge | intros _; exact IH].
Qed.

(** X5: in a run with the dry-run flag, whatever the job list and whatever the
    outside world answers, no process is started except [pt-archiver], each
    time with [--dry-run] among its arguments and its output captured
    rather than logged: [mysql] and [mysqldump] never run, so no table is
    created, renamed or dropped. *)
Theorem dry_run_starts_only_simulating_archiver (o : options) (st : state) :
  dry_run o = true ->
  exists evs : list event,
    trace (snd (main o st)) = trace st ++ evs /\ Forall simulated evs.
Proof.
  intros Hdry.
  assert (Hbody : emits simulated (main_body o)).
  { unfold main_body, load_config, return_from_main.
    apply emits_bind; [emits_auto | intros loaded].
    destruct loaded as [[|] | data]; [emits_auto | emits_auto |].
    apply emits_bind; [apply emits_lift | intros default_purge].
    apply emits_bind; [apply emits_lift | intros purge_list].
    apply emits_bind; [| intros purges; now apply simulated_purges_loop].
    destruct (opt_alias o); emits_auto. }
  unfold main.
  destruct (main_body o st) as [r st1] eqn:Ebody.
  destruct (Hbody st r st1 Ebody) as (evs & Ht & Hall).
  destruct r as [[] | e | | code]; cbn [outer_handler snd].
  - exists evs. now split.
  - exists (evs ++ [EvLog LogUnhandled]). cbn [logging emit snd trace].
    split; [now rewrite Ht, app_assoc |].
    apply Forall_app. split; [exact Hall | now repeat constructor].
  - exists evs. now split.
  - exists evs. now split.
Qed.

(** ** How a run ends *)

(** X4: [main] never lets an exception out and ends in one of two ways: it
    returns, so that the process ends with status 0, also after a failed
    load, a failed check or an exception; or, only under stop-on-error, it
    exits with status 1. *)
Theorem main_returns_or_exits_1 (o : options) (st : state) :
  (fst (main o st) = Val tt /\ exit_status (fst (main o st)) = 0) \/
  (stop_on_error o = true /\ fst (main o st) = Exit 1 /\
   exit_status (fst (main o st)) = 1).
Proof.
  unfold main. destruct (main_body o st) as [r st1] eqn:Ebody.
  destruct r as [[] | e | | code]; cbn [outer_handler]; try (left; split; reflexivity).
  destruct (sound_main_body o st _ st1 Ebody) as (evs & _ & [[Hne _] | (Hstop & Hex & _)]).
  - now destruct (Hne code).
  - injection Hex as ->. right. repeat split; auto.
Qed.

(** ** The alias filter in a run *)

(** X3: with the alias option and a document that has both sections, [main]
    processes exactly the merged jobs whose alias equals the option, in the
    document's order; unless some merged job, selected or not, has no ALIAS
    key: then no job at all is processed and the run ends in the handler
    of line 190 with one log record. *)
Theorem alias_filter_reads_every_job
    (o : options) (st : state) (alias : string)
    (default_purge : gmap string pyval) (purge_list : list (gmap string pyval)) :
  opt_alias o = Some alias ->
  safe_load (world st) (default CFG_FILE (opt_conf o)) =
    Loaded (Document (Some default_purge) (Some purge_list)) ->
  (forallb has_alias (map (merge default_purge) purge_list) = true ->
   main_body o st =
     purges_loop o (List.filter (alias_is alias) (map (merge default_purge) purge_list)) st) /\
  (forallb has_alias (map (merge default_purge) purge_list) = false ->
   main o st = (Val tt, after_events st [EvLog LogUnhandled])).
Proof.
  intros Halias Hload.
  assert (Hbody : main_body o st =
    skip_rest (lift (select_alias alias (map (merge default_purge) purge_list)) st)
      (purges_loop o)).
  { unfold main_body, bind, load_config. rewrite Hload, Halias. reflexivity. }
  split; intros Hall.
  - rewrite Hbody, select_alias_spec, Hall. reflexivity.
  - unfold main. rewrite Hbody, select_alias_spec, Hall. reflexivity.
Qed.

(** ** The lookup, row by row *)

Lemma rows_before_malformed_all (res : list (list pyval)) :
  forallb well_formed res = true -> rows_before_malformed res = res.
Proof.
  induction res as [| row res IH]; [reflexivity |].
  cbn [forallb rows_before_malformed]. intros Hall.
  apply andb_true_iff in Hall as [-> Hall]. now rewrite IH.
Qed.

(** X2: when the query succeeds the enumeration yields one target per row, in
    order, up to the first row without a second column, and logs an error
    exactly when there is such a row; columns after the second are not
    read, and there are never more targets than rows. *)
Theorem lookup_yields_rows_before_malformed
    (host port sql : pyval) (st : state) (w : World) (res : list (list pyval)) :
  fetchall (world st) host port sql = (w, QRows res) ->
  get_tables_from_query host port sql st =
    (Val (map row_target (rows_before_malformed res)),
     State w (trace st ++
              EvQuery host port sql ::
              (if forallb well_formed res then [] else [EvLog LogIndexError]))) /\
  (length (map row_target (rows_before_malformed res)) <= length res)%nat /\
  (forallb well_formed res = true -> rows_before_malformed res = res).
Proof.
  intros Hq. split; [| split].
  - unfold get_tables_from_query, bind, run_query. rewrite Hq.
    rewrite collect_rows_spec. cbn [app].
    destruct (forallb well_formed res); cbn [negb]; unfold logging, emit, ret;
      cbn [world trace]; [reflexivity | now rewrite <- app_assoc].
  - rewrite length_map. apply rows_before_malformed_length.
  - apply rows_before_malformed_all.
Qed.

(** ** What the dispatcher does to the configuration *)

Lemma same_but_dst_tbl_refl (c : conf) : same_but_dst_tbl c c.
Proof. reflexivity. Qed.

Lemma same_but_dst_tbl_set (c : conf) (v : pyval) : same_but_dst_tbl c (set_dst_tbl c v).
Proof. reflexivity. Qed.

Lemma same_but_dst_tbl_trans (c1 c2 c3 : conf) :
  same_but_dst_tbl c1 c2 -> same_but_dst_tbl c2 c3 -> same_but_dst_tbl c1 c3.
Proof. unfold same_but_dst_tbl. congruence. Qed.

Lemma dispatch_conf (o : options) (tbl : target) (l l1 : locals) (st st1 : state) :
  dispatch o tbl l st = (Val l1, st1) ->
  same_but_dst_tbl (l_conf l) (l_conf l1) /\
  (Py.eq (swp_drp (l_conf l)) (PInt 2) = false -> l_conf l1 = l_conf l).
Proof.
  unfold dispatch, bind, lift, ret, raise. intros Hd.
  repeat match type of Hd with
         | context [match ?x with _ => _ end] => destruct x eqn:?; try discriminate
         | context [if ?b then _ else _] => destruct b eqn:?; try discriminate
         end;
    injection Hd as <- _; cbn [l_conf assign_ret];
    (split; [first [apply same_but_dst_tbl_refl | apply same_but_dst_tbl_set]
            | first [reflexivity | congruence]]).
Qed.

(** X9: whatever the strategy, a dispatcher that returns has changed nothing of
    the job configuration except, for swap-archive-drop, the destination
    table; with the other two strategies the configuration is exactly as
    before.  The same holds over a whole loop: the configuration the report
    reads afterwards is the job's own but for the destination table, so its
    alias, source coordinates and selector are the ones validated. *)
Theorem loop_rewrites_only_dst_tbl
    (o : options) (f : string) (tables : list target) (l l' : locals) (st st' : state) :
  targets_loop o f tables l st = (Val l', st') ->
  same_but_dst_tbl (l_conf l) (l_conf l') /\
  (Py.eq (swp_drp (l_conf l)) (PInt 2) = false -> l_conf l' = l_conf l).
Proof.
  revert l st. induction tables as [| tbl rest IH]; intros l st Hloop.
  - injection Hloop as <- _. split; [apply same_but_dst_tbl_refl | reflexivity].
  - cbn [targets_loop] in Hloop. unfold bind at 1 in Hloop.
    destruct (target_body o f tbl l st) as [[l2 | | |] st2] eqn:Ebody; try discriminate.
    unfold target_body, bind in Ebody.
    destruct (dispatch o tbl l st) as [[l1 | | |] st1] eqn:Edisp; try discriminate.
    destruct (dispatch_conf o tbl l l1 st st1 Edisp) as (Hsame1 & Hkeep1).
    destruct (after_target_Val o f l1 l2 st1 st2 Ebody) as (r & _ & Hc2 & _).
    destruct (IH l2 st2 Hloop) as (Hsame & Hkeep). rewrite Hc2 in Hsame, Hkeep.
    split.
    + eapply same_but_dst_tbl_trans; eauto.
    + intros Hsel. specialize (Hkeep1 Hsel). rewrite Hkeep1 in Hkeep.
      exact (Hkeep Hsel).
Qed.

Lemma swap_create_table_ignores_dst_tbl (o : options) (src_db src_tbl swapped v : pyval)
    (c : conf) :
  swap_create_table src_db src_tbl swapped (set_dst_tbl c v) o =
  swap_create_table src_db src_tbl swapped c o.
Proof. reflexivity. Qed.

Lemma set_dst_tbl_twice (c : conf) (v w : pyval) :
  set_dst_tbl (set_dst_tbl c v) w = set_dst_tbl c w.
Proof. reflexivity. Qed.

(** X10: the swap-archive-drop dispatcher does not read the destination table it
    finds in the configuration: whatever an earlier target left there, it
    does the same things to the outside world and ends with the same
    status.  The rewrite of line 168 never leaks from one target into the
    next. *)
Theorem stale_dst_tbl_is_never_read
    (o : options) (tbl : target) (l : locals) (st : state) (v : pyval) :
  Py.eq (swp_drp (l_conf l)) (PInt 2) = true ->
  snd (dispatch o tbl (with_conf l (set_dst_tbl (l_conf l) v)) st) =
    snd (dispatch o tbl l st) /\
  result_map l_ret (fst (dispatch o tbl (with_conf l (set_dst_tbl (l_conf l) v)) st)) =
    result_map l_ret (fst (dispatch o tbl l st)).
Proof.
  intros Hsel.
  assert (Hsel' : Py.eq (swp_drp (l_conf (with_conf l (set_dst_tbl (l_conf l) v))))
                    (PInt 2) = true) by exact Hsel.
  destruct tbl as [db tb].
  assert (Hraise : (forall t s, table (Target db tb) = PStr t ->
                                swp_table_suffix (l_conf l) = PStr s -> False) ->
    dispatch o (Target db tb) (with_conf l (set_dst_tbl (l_conf l) v)) st =
      (Raise TypeError, st) /\
    dispatch o (Target db tb) l st = (Raise TypeError, st)).
  { intros Hnot. split; apply dispatch_selector_2_not_strings; auto. }
  destruct tb as [| b | z | t];
    try (destruct Hraise as [-> ->]; [cbn [table]; congruence | split; reflexivity]).
  destruct (swp_table_suffix (l_conf l)) as [| b | z | s] eqn:Es;
    try (destruct Hraise as [-> ->]; [congruence | split; reflexivity]).
  clear Hraise.
  rewrite (dispatch_selector_2 o db t s l st Hsel Es).
  rewrite (dispatch_selector_2 o db t s _ st Hsel' Es).
  cbn [l_conf with_conf].
  rewrite swap_create_table_ignores_dst_tbl, !set_dst_tbl_twice.
  destruct (swap_create_table db (PStr t) (PStr ((t +:+ "_") +:+ s)) (l_conf l) o st)
    as [[r1 | e | | code] st1]; cbn [skip_rest]; try (split; reflexivity).
  destruct (r1 =? 0); split; reflexivity.
Qed.

(** ** [ret] is bound when it is read *)

(** X11: for a job that passed the selector check, a dispatcher that returns has
    assigned [ret], so line 174 never reads an unbound variable: the loop
    body raises only what the dispatcher itself raised. *)
Theorem validated_selector_binds_ret
    (o : options) (f : string) (tbl : target) (l : locals) (st : state) :
  is_in (swp_drp (l_conf l)) [PInt 0; PInt 1; PInt 2] = true ->
  (forall l1 st1, dispatch o tbl l st = (Val l1, st1) -> exists r, l_ret l1 = Some r) /\
  (forall e st', target_body o f tbl l st = (Raise e, st') ->
                 dispatch o tbl l st = (Raise e, st')).
Proof.
  intros Hin.
  assert (Hret : forall l1 st1, dispatch o tbl l st = (Val l1, st1) ->
                                exists r, l_ret l1 = Some r).
  { intros l1 st1. apply is_in_selectors in Hin.
    unfold dispatch, bind, lift, ret, raise. intros Hd.
    repeat match type of Hd with
           | context [match ?x with _ => _ end] => destruct x eqn:?; try discriminate
           | context [if ?b then _ else _] => destruct b eqn:?; try discriminate
           end;
      try (injection Hd as <- _; cbn [l_ret assign_ret]; eauto; fail).
    exfalso. intuition congruence. }
  split; [exact Hret |].
  intros e st' Hbody. unfold target_body, bind in Hbody.
  destruct (dispatch o tbl l st) as [[l1 | e1 | | code] st1] eqn:Edisp;
    try discriminate; [| exact Hbody].
  exfalso. destruct (Hret l1 st1 eq_refl) as (r & Hr).
  destruct (Z.eq_dec r 0) as [-> | Hne].
  - rewrite (after_target_passed o f l1 st1 Hr) in Hbody. discriminate.
  - rewrite (after_target_failed o f l1 st1 r Hr Hne) in Hbody.
    destruct (stop_on_error o); discriminate.
Qed.

(** ** A database name that is not a string *)

Lemma strings_of_mysql_cmd (src_db : pyval) (c : conf) (sql_cmd : string) :
  (forall d, src_db <> PStr d) -> strings_of (mysql_cmd src_db c sql_cmd) = None.
Proof.
  intros Hnot. unfold mysql_cmd. cbn [strings_of].
  destruct src_db as [| b | z | d]; try reflexivity. now destruct (Hnot d).
Qed.

(** X12: when the database of a target is not a string (SOURCE_DB left out, or a
    null in a row), the three DDL steps of a real run raise [TypeError]
    before any process exists and leave no trace.  In a simulated run the
    swap-and-drop step does not notice: it prints the command and reports
    success, where the real run cannot start. *)
Theorem ddl_steps_need_a_string_database
    (o : options) (src_db src_tbl swapped : pyval) (c : conf) (st : state) :
  (forall d, src_db <> PStr d) ->
  (dry_run o = false ->
     drop_table src_db src_tbl c o st = (Raise TypeError, st) /\
     swap_drop_runner src_db src_tbl c o st = (Raise TypeError, st) /\
     swap_create_table src_db src_tbl swapped c o st = (Raise TypeError, st)) /\
  (dry_run o = true ->
     fst (swap_drop_runner src_db src_tbl c o st) = Val 0 /\
     List.filter is_step (trace (snd (swap_drop_runner src_db src_tbl c o st))) =
       List.filter is_step (trace st)).
Proof.
  intros Hnot. split; intros Hdry.
  - unfold drop_table, swap_drop_runner, swap_create_table, popen, bind.
    rewrite Hdry, !strings_of_mysql_cmd by exact Hnot. repeat split; reflexivity.
  - unfold swap_drop_runner. rewrite Hdry. split; [reflexivity |].
    unfold bind, print, emit, ret. cbn [snd trace].
    rewrite <- app_assoc, List.filter_app. cbn. now rewrite app_nil_r.
Qed.

(** ** How many processes a target takes *)

Lemma steps_bind (n m : nat) {A B} (c : M A) (k : A -> M B) :
  steps_at_most n c -> (forall a, steps_at_most m (k a)) ->
  steps_at_most (n + m) (bind c k).
Proof.
  apply adds_bind.
  - intros evs Hn. lia.
  - intros evs1 evs2 H1 H2. rewrite List.filter_app, length_app. lia.
Qed.

Lemma steps_le (n m : nat) {A} (c : M A) :
  (n <= m)%nat -> steps_at_most n c -> steps_at_most m c.
Proof. intros Hle. apply adds_weaken. intros evs Hn. lia. Qed.

Lemma steps_nothing {A} (c : M A) : (forall st, snd (c st) = st) -> steps_at_most 0 c.
Proof. apply adds_nothing. cbn. lia. Qed.

Lemma steps_silent (e : event) : is_step e = false -> steps_at_most 0 (emit e).
Proof. intros He. apply adds_emit. cbn. rewrite He. cbn. lia. Qed.

Lemma steps_join (cmd : list pyval) : steps_at_most 0 (join cmd).
Proof. apply steps_nothing. intros st. unfold join. now destruct (strings_of cmd). Qed.

Lemma steps_popen (cmd : list pyval) (stdin : option (list string)) (out : stream) :
  steps_at_most 1 (popen cmd stdin out).
Proof.
  unfold popen. destruct (strings_of cmd); [| apply (steps_le 0); [lia |];
                                              apply steps_nothing; reflexivity].
  apply adds_run_process. intros rc. cbn. lia.
Qed.

Lemma steps_popen_nowait (cmd : list pyval) : steps_at_most 1 (popen_nowait cmd).
Proof.
  unfold popen_nowait. destruct (strings_of cmd); [| apply (steps_le 0); [lia |];
                                                     apply steps_nothing; reflexivity].
  apply (steps_bind 1 0); [apply adds_emit; cbn; lia | intros _].
  apply steps_nothing. reflexivity.
Qed.

Lemma steps_prints {A} (p1 p2 : printed) (a : A) :
  steps_at_most 0 (print p1 >> print p2 >> ret a).
Proof.
  apply (steps_bind 0 0); [now apply steps_silent | intros _].
  apply (steps_bind 0 0); [now apply steps_silent | intros _].
  apply steps_nothing. reflexivity.
Qed.

Lemma steps_drop_table (o : options) (src_db src_tbl : pyval) (c : conf) :
  steps_at_most 1 (drop_table src_db src_tbl c o).
Proof.
  unfold drop_table. destruct (dry_run o); [| apply steps_popen].
  apply (steps_le 0); [lia |].
  apply (steps_bind 0 0); [apply steps_join | intros line]. apply steps_prints.
Qed.

Lemma steps_swap_drop_runner (o : options) (src_db src_tbl : pyval) (c : conf) :
  steps_at_most 1 (swap_drop_runner src_db src_tbl c o).
Proof.
  unfold swap_drop_runner. destruct (dry_run o); [| apply steps_popen].
  apply (steps_le 0); [lia |]. apply steps_prints.
Qed.

Lemma steps_pt_archive_runner (o : options) (src_db src_tbl : pyval) (c : conf) :
  steps_at_most 1 (pt_archive_runner src_db src_tbl c o).
Proof.
  unfold pt_archive_runner.
  apply (steps_bind 0 1); [apply steps_nothing; intros st; unfold lift;
                           now destruct (pt_archiver_cmd src_db src_tbl c o) | intros cmd].
  apply (steps_bind 0 1); [now apply steps_silent | intros _].
  destruct (dry_run o).
  - apply (steps_bind 1 0); [apply adds_run_process; intros rc; cbn; lia | intros r].
    apply steps_prints.
  - apply adds_run_process. intros rc. cbn. lia.
Qed.

Lemma steps_swap_create_table (o : options) (src_db src_tbl swapped : pyval) (c : conf) :
  steps_at_most 3 (swap_create_table src_db src_tbl swapped c o).
Proof.
  unfold swap_create_table. apply (steps_bind 1 2).
  - destruct (dry_run o); [| apply steps_popen].
    apply (steps_le 0); [lia |]. apply steps_prints.
  - intros r. destruct (r =? 0); [| apply (steps_le 0); [lia |];
                                    apply steps_nothing; reflexivity].
    destruct (dry_run o).
    + apply (steps_le 0); [lia |].
      apply (steps_bind 0 0); [apply steps_join | intros dump_line].
      apply (steps_bind 0 0); [now apply steps_silent | intros _].
      apply (steps_bind 0 0); [apply steps_join | intros create_line].
      apply (steps_bind 0 0); [now apply steps_silent | intros _].
      apply steps_nothing. reflexivity.
    + apply (steps_bind 1 1); [apply steps_popen_nowait | intros dump_args].
      apply steps_popen.
Qed.

(** X13: one target takes at most five child processes, all in the
    swap-archive-drop strategy (swap, dump, create, archive, drop); with
    the archive-only and swap-and-drop strategies it takes at most one. *)
Theorem dispatch_starts_at_most_five_processes (o : options) (tbl : target) (l : locals) :
  steps_at_most 5 (dispatch o tbl l) /\
  (Py.eq (swp_drp (l_conf l)) (PInt 2) = false -> steps_at_most 1 (dispatch o tbl l)).
Proof.
  assert (Hret : forall (x : locals), steps_at_most 0 (ret x))
    by (intros x; apply steps_nothing; reflexivity).
  assert (Hlift : forall (x : exn + pyval), steps_at_most 0 (lift x))
    by (intros x; apply steps_nothing; intros st; now destruct x).
  assert (Hone : Py.eq (swp_drp (l_conf l)) (PInt 2) = false ->
                 steps_at_most 1 (dispatch o tbl l)).
  { intros Hsel. unfold dispatch. rewrite Hsel.
    destruct (Py.eq (swp_drp (l_conf l)) (PInt 0)).
    { apply (steps_bind 1 0); [apply steps_pt_archive_runner | intros r; apply Hret]. }
    destruct (Py.eq (swp_drp (l_conf l)) (PInt 1)).
    { apply (steps_bind 1 0); [apply steps_swap_drop_runner | intros r; apply Hret]. }
    apply (steps_le 0); [lia | apply Hret]. }
  split; [| exact Hone].
  destruct (Py.eq (swp_drp (l_conf l)) (PInt 2)) eqn:Hsel;
    [| apply (steps_le 1); [lia | now apply Hone]].
  unfold dispatch. rewrite Hsel.
  destruct (Py.eq (swp_drp (l_conf l)) (PInt 0)).
  { apply (steps_le 1); [lia |].
    apply (steps_bind 1 0); [apply steps_pt_archive_runner | intros r; apply Hret]. }
  destruct (Py.eq (swp_drp (l_conf l)) (PInt 1)).
  { apply (steps_le 1); [lia |].
    apply (steps_bind 1 0); [apply steps_swap_drop_runner | intros r; apply Hret]. }
  apply (steps_bind 0 5); [apply Hlift | intros prefix].
  apply (steps_bind 0 5); [apply Hlift | intros swapped].
  apply (steps_bind 3 2); [apply steps_swap_create_table | intros r1].
  destruct (r1 =? 0); [| apply (steps_le 0); [lia | apply Hret]].
  apply (steps_bind 1 1); [apply steps_pt_archive_runner | intros r2].
  destruct (r2 =? 0); [| apply (steps_le 0); [lia | apply Hret]].
  apply (steps_bind 1 0); [apply steps_drop_table | intros r3; apply Hret].
Qed.

(** ** The swap step, process by process *)

(** X14: in a real run with string names, the swap step first runs the [mysql]
    client with the create-and-rename statements.  If that returns a status
    other than 0, the step ends with it and nothing else runs.  If it
    returns 0, [mysqldump] of the renamed table is started and piped into a
    [mysql] client on the destination, whose status is the step's: a failed
    structure copy fails the step although the tables are already
    renamed. *)
Theorem swap_step_copies_structure_after_rename
    (o : options) (d t s dd : string) (c : conf) (st : state) :
  dry_run o = false -> dst_db c = PStr dd ->
  let swap_args :=
    ["mysql"; d; "-h" +:+ str (src_host c); "-P" +:+ str (src_port c);
     "-e" +:+ ("CREATE TABLE " +:+ d +:+ "." +:+ t +:+ "_tmp LIKE " +:+ d +:+ "." +:+ t +:+
               ";" +:+ "RENAME TABLE " +:+ d +:+ "." +:+ t +:+ " TO " +:+ d +:+ "." +:+ s +:+
               ", " +:+ d +:+ "." +:+ t +:+ "_tmp TO " +:+ d +:+ "." +:+ t +:+ ";")] in
  let dump_args :=
    ["mysqldump"; "-h" +:+ str (src_host c); "-P" +:+ str (src_port c);
     "--skip-opt"; "--no-data"; "--no-create-db"; d; s] in
  let create_args :=
    ["mysql"; "-h" +:+ str (dst_host c); "-P" +:+ str (dst_port c); dd] in
  let swap := Process swap_args None ToLog in
  let create := Process create_args (Some dump_args) ToLog in
  swap_create_table (PStr d) (PStr t) (PStr s) c o st =
    (let (w1, rc1) := communicate (world st) swap in
     if rc1 =? 0 then
       let (w2, rc2) := communicate w1 create in
       (Val rc2, State w2 (trace st ++ [EvRun swap rc1; EvSpawn dump_args; EvRun create rc2]))
     else (Val rc1, State w1 (trace st ++ [EvRun swap rc1]))).
Proof.
  intros Hdry Hdst swap_args dump_args create_args swap create.
  unfold swap_create_table, mysql_cmd, popen, popen_nowait. rewrite Hdry, Hdst.
  cbn [strings_of option_map str]. unfold bind at 1. unfold run_process at 1.
  fold swap_args. fold swap.
  destruct (communicate (world st) swap) as [w1 rc1]. cbn [world trace].
  destruct (rc1 =? 0); [| reflexivity].
  unfold bind, emit, ret, run_process. cbn [world trace].
  fold dump_args. fold create_args. fold create.
  destruct (communicate w1 create) as [w2 rc2]. now rewrite <- !app_assoc.
Qed.

(** ** An archive-only job from start to end *)

(** X15: a job with selector 0 and no lookup query, whose archiver command can
    be built, opens its log, logs and runs that one command on the source
    database and table, and then: on status 0 logs its success and ends;
    on another status logs the failure and either exits with status 1
    (stop-on-error) or ends without the success line. *)
Theorem archive_only_job_runs_one_command
    (o : options) (c : conf) (st : state) (cmd : list string) :
  Py.eq (swp_drp c) (PInt 0) = true ->
  truthy (src_query c) = false ->
  pt_archiver_cmd (src_db c) (src_tbl c) c o = inr cmd ->
  let f := log_file_of (prg_alias c) (strftime_Ymd (world st)) in
  let p := Process cmd None (if dry_run o then ToPipe else ToLog) in
  let started :=
    [EvOpenLog f; EvLog (LogRunning (prg_alias c) (join_space cmd));
     EvRun p (snd (communicate (world st) p))] ++
    (if dry_run o then [EvPrint PrintOut; EvPrint PrintErr] else []) in
  let failed :=
    [EvLog (LogPurgeFailedCheck (prg_alias c) ("Check " +:+ f)); EvLog LogPurgeFailed] in
  run_job o c st =
    (let (w, rc) := communicate (world st) p in
     if rc =? 0 then
       (Val tt, State w (trace st ++ started ++
                         [EvLog (LogPurgeComplete (prg_alias c)); EvLog LogPurgeFinished]))
     else if stop_on_error o then
       (Exit 1, State w (trace st ++ started ++ failed))
     else
       (Val tt, State w (trace st ++ started ++ failed ++ [EvLog LogPurgeFinished]))).
Proof.
  intros Hsel Hstatic Hcmd f p started failed.
  unfold run_job, bind at 1, strftime. unfold bind at 1, emit. cbn [world trace].
  unfold enumerate. rewrite Hstatic. unfold bind at 1, ret at 1.
  cbn [targets_loop]. unfold target_body, dispatch. cbn [l_conf database table].
  rewrite Hsel. unfold pt_archive_runner. rewrite Hcmd. cbn [lift].
  unfold bind, ret, logging, print, emit, run_process. cbn [world trace].
  subst started failed. fold f.
  destruct (dry_run o); subst p; cbn [world trace];
    match goal with |- context [communicate ?w ?q] => destruct (communicate w q) as [w1 rc] end;
    cbn [snd world trace l_ret assign_ret after_target];
    unfold after_target; cbn [l_ret assign_ret l_conf error_on_alias statuses];
    destruct (rc =? 0) eqn:Erc; cbn [negb];
    unfold bind, ret, logging, emit, sys_exit, report; cbn [world trace];
    try (destruct (stop_on_error o)); cbn [is_in existsb negb l_conf error_on_alias app];
    rewrite ?py_eq_refl; cbn [orb negb world trace];
    unfold bind, ret, logging, emit; cbn [world trace];
    rewrite <- ?app_assoc; reflexivity.
Qed.

End MoreProperties.

(** ** Where an option's value comes from *)

(** X17: an option is read from the job's own mapping first, then from the
    defaults section, then from the built-in default; a key written with a
    null value counts as given, so it hides both the defaults section and
    the built-in default. *)
Theorem option_precedence
    (default_purge purge : gmap string pyval) (key : string) (dflt : pyval) :
  get_or (merge default_purge purge) key dflt =
    match purge !! key with
    | Some v => v
    | None => match default_purge !! key with
              | Some v => v
              | None => dflt
              end
    end /\
  (purge !! key = Some PNone -> get_or (merge default_purge purge) key dflt = PNone).
Proof.
  unfold get_or. rewrite merge_lookup.
  destruct (purge !! key) as [v |]; [| destruct (default_purge !! key)];
    (split; [reflexivity |]); intros Hnull; try discriminate.
  injection Hnull as ->. reflexivity.
Qed.

(** * The further properties on scripted runs *)

(** Three rows, the second with one column only. *)
Lemma lookup_yields_rows_before_malformed_witness :
  let rows := [[PStr "db1"; PStr "t1"; PStr "more"]; [PStr "db2"]; [PStr "db3"; PStr "t3"]] in
  let w := Script (doc_of [swap_job]) "20240101" [] (QRows rows) in
  @fetchall scripted (@world scripted (start w)) (PStr "h") (PInt 3306) (PStr "q") =
    (w, QRows rows) /\
  @get_tables_from_query scripted (PStr "h") (PInt 3306) (PStr "q") (start w) =
    (Val [Target (PStr "db1") (PStr "t1")],
     @State scripted w [EvQuery (PStr "h") (PInt 3306) (PStr "q"); EvLog LogIndexError]).
Proof.
  intros rows w. split; [reflexivity |].
  destruct (@lookup_yields_rows_before_malformed scripted (PStr "h") (PInt 3306) (PStr "q")
              (start w) w rows eq_refl) as (Hrows & _).
  exact Hrows.
Defined.

(** The alias option picks the second of two jobs; and a third job without
    an alias makes the selection fail for all. *)
Lemma alias_filter_reads_every_job_witness :
  let o := Options None None (Some "logs") false false in
  let nameless : gmap string pyval := <["SOURCE_DB" := PStr "shop"]> ∅ in
  let w := Script (doc_of [archive_job; swap_job]) "20240101" [] two_rows in
  let w' := Script (doc_of [archive_job; swap_job; nameless]) "20240101" [] two_rows in
  opt_alias o = Some "logs" /\
  @main_body scripted o (start w) = @purges_loop scripted o [merge ∅ swap_job] (start w) /\
  @main scripted o (start w') = (Val tt, @State scripted w' [EvLog LogUnhandled]).
Proof.
  intros o nameless w w'. split; [reflexivity |]. split.
  - destruct (@alias_filter_reads_every_job scripted o (start w) "logs" ∅
                [archive_job; swap_job] eq_refl eq_refl) as (Hsome & _).
    apply Hsome. reflexivity.
  - destruct (@alias_filter_reads_every_job scripted o (start w') "logs" ∅
                [archive_job; swap_job; nameless] eq_refl eq_refl) as (_ & Hnone).
    apply Hnone. reflexivity.
Defined.

(** A dry run of the swap-archive-drop job over two targets: the processes
    started are the two archiver runs, both with [--dry-run]. *)
Lemma dry_run_starts_only_simulating_archiver_witness :
  let st := start (Script (doc_of [swap_job]) "20240101" [] two_rows) in
  dry_run dry_options = true /\
  length (List.filter is_step
            (@trace scripted (snd (@main scripted dry_options st)))) = 2%nat /\
  exists evs : list event,
    @trace scripted (snd (@main scripted dry_options st)) = @trace scripted st ++ evs /\
    Forall simulated evs.
Proof.
  intros st. split; [reflexivity |]. split; [vm_compute; reflexivity |].
  apply (@dry_run_starts_only_simulating_archiver scripted dry_options st). reflexivity.
Defined.

(** A loop over two targets of the swap-archive-drop job. *)
Lemma loop_rewrites_only_dst_tbl_witness :
  let st := start (Script (doc_of [swap_job]) "20240101" [] two_rows) in
  let c := resolve "20240101" swap_job in
  let tables := [Target (PStr "db1") (PStr "t1"); Target (PStr "db2") (PStr "t2")] in
  let run := @targets_loop scripted no_options "log" tables (@Locals c [] None []) st in
  fst run = Val (@Locals (set_dst_tbl c (PStr "t2_old")) [] (Some 0) [0; 0]) /\
  same_but_dst_tbl c (set_dst_tbl c (PStr "t2_old")).
Proof.
  intros st c tables run.
  assert (Hrun : run = (Val (@Locals (set_dst_tbl c (PStr "t2_old")) [] (Some 0) [0; 0]),
                        snd run)) by (vm_compute; reflexivity).
  split; [now rewrite Hrun |].
  destruct (@loop_rewrites_only_dst_tbl scripted no_options "log" tables
              (@Locals c [] None []) _ st (snd run) Hrun) as (Hsame & _).
  exact Hsame.
Defined.

(** The second target of a job finds the first target's table name in the
    configuration and is not affected by it. *)
Lemma stale_dst_tbl_is_never_read_witness :
  let st := start (Script (doc_of [swap_job]) "20240101" [0; 0; 3] two_rows) in
  let l := @Locals (resolve "20240101" swap_job) [] None [] in
  Py.eq (swp_drp (l_conf l)) (PInt 2) = true /\
  snd (@dispatch scripted no_options (Target (PStr "db2") (PStr "t2"))
         (with_conf l (set_dst_tbl (l_conf l) (PStr "t1_old"))) st) =
  snd (@dispatch scripted no_options (Target (PStr "db2") (PStr "t2")) l st).
Proof.
  intros st l. split; [reflexivity |].
  destruct (@stale_dst_tbl_is_never_read scripted no_options
              (Target (PStr "db2") (PStr "t2")) l st (PStr "t1_old") eq_refl) as (Hst & _).
  exact Hst.
Defined.

(** A boolean selector passes the check and binds [ret]: YAML [true] is
    the swap-and-drop strategy. *)
Lemma validated_selector_binds_ret_witness :
  let job : gmap string pyval := <["SWAP_DROP" := PBool true]> archive_job in
  let l := @Locals (resolve "20240101" job) [] None [] in
  let st := start (Script (doc_of [job]) "20240101" [4] QFailed) in
  is_in (swp_drp (l_conf l)) [PInt 0; PInt 1; PInt 2] = true /\
  exists r, l_ret (@Locals (l_conf l) [] (Some 4) []) = Some r.
Proof.
  intros job l st. split; [reflexivity |].
  destruct (@validated_selector_binds_ret scripted no_options "log"
              (Target (PStr "shop") (PStr "orders")) l st eq_refl) as (Hret & _).
  apply (Hret (@Locals (l_conf l) [] (Some 4) [])
              (snd (@dispatch scripted no_options (Target (PStr "shop") (PStr "orders")) l st))).
  vm_compute. reflexivity.
Defined.

(** A static swap-and-drop job without SOURCE_DB: the real run raises, the
    simulated run reports success. *)
Lemma ddl_steps_need_a_string_database_witness :
  let c := resolve "20240101" (<["SWAP_DROP" := PInt 1]> (<["ALIAS" := PStr "tmp"]> ∅)) in
  let st := start (Script (doc_of []) "20240101" [] QFailed) in
  src_db c = PNone /\
  @swap_drop_runner scripted PNone (PStr "t") c no_options st = (Raise TypeError, st) /\
  fst (@swap_drop_runner scripted PNone (PStr "t") c dry_options st) = Val 0.
Proof.
  intros c st. split; [reflexivity |].
  destruct (@ddl_steps_need_a_string_database scripted no_options PNone (PStr "t") (PStr "u")
              c st ltac:(discriminate)) as (Hreal & _).
  destruct (@ddl_steps_need_a_string_database scripted dry_options PNone (PStr "t") (PStr "u")
              c st ltac:(discriminate)) as (_ & Hdry).
  destruct (Hreal eq_refl) as (_ & Hswap & _).
  destruct (Hdry eq_refl) as (Hzero & _).
  split; [exact Hswap | exact Hzero].
Defined.

(** The bound of five processes is reached. *)
Lemma dispatch_starts_at_most_five_processes_witness :
  let st := start (Script (doc_of [swap_job]) "20240101" [] two_rows) in
  let l := @Locals (resolve "20240101" swap_job) [] None [] in
  let run := @dispatch scripted no_options (Target (PStr "db1") (PStr "t1")) l st in
  length (List.filter is_step (@trace scripted (snd run))) = 5%nat /\
  exists evs : list event,
    @trace scripted (snd run) = @trace scripted st ++ evs /\
    (length (List.filter is_step evs) <= 5)%nat.
Proof.
  intros st l run. split; [vm_compute; reflexivity |].
  destruct (@dispatch_starts_at_most_five_processes scripted no_options
              (Target (PStr "db1") (PStr "t1")) l) as (Hfive & _).
  apply (Hfive st (fst run) (snd run)). apply surjective_pairing.
Defined.

(** A rename that succeeds followed by a structure copy that fails with
    status 2: the step's status is 2 and the rename has run. *)
Lemma swap_step_copies_structure_after_rename_witness :
  let c := resolve "20240101" swap_job in
  let st := start (Script (doc_of [swap_job]) "20240101" [0; 2] two_rows) in
  dry_run no_options = false /\ dst_db c = PStr "archive" /\
  fst (@swap_create_table scripted (PStr "db1") (PStr "t1") (PStr "t1_old") c no_options st)
    = Val 2 /\
  length (@trace scripted
            (snd (@swap_create_table scripted (PStr "db1") (PStr "t1") (PStr "t1_old") c
                    no_options st))) = 3%nat.
Proof.
  intros c st. split; [reflexivity |]. split; [reflexivity |].
  rewrite (@swap_step_copies_structure_after_rename scripted no_options "db1" "t1" "t1_old"
             "archive" c st eq_refl eq_refl).
  split; vm_compute; reflexivity.
Defined.

(** The archive-only job of the first scenario with a failing archiver,
    under stop-on-error. *)
Lemma archive_only_job_runs_one_command_witness :
  let c := resolve "20240101" archive_job in
  let st := start (Script (doc_of [archive_job]) "20240101" [1] QFailed) in
  Py.eq (swp_drp c) (PInt 0) = true /\ truthy (src_query c) = false /\
  fst (@run_job scripted stop_options c st) = Exit 1 /\
  length (List.filter is_step
            (@trace scripted (snd (@run_job scripted stop_options c st)))) = 1%nat.
Proof.
  intros c st. split; [reflexivity |]. split; [reflexivity |].
  rewrite (@archive_only_job_runs_one_command scripted stop_options c st
             (archiver_base (src_db c) (src_tbl c) c ++ archiver_mode c ++
              archiver_dry_run stop_options ++ [])
             eq_refl eq_refl eq_refl).
  split; vm_compute; reflexivity.
Defined.
